(** * Global Wellness backend: account service

    A shallow embedding of [backend/main.py] and [backend/database.py]:
    the password hasher, the token issuer and verifier, the [users] table
    and the six endpoints, followed by the properties of the
    specification that are checked against them.

    Conventions of the embedding.
    - Python exceptions are values of [exn]; a call either [Return]s or
      [Raise]s, and [try ... except E] is a match on the raised value.
      An [HTTPException] that leaves an endpoint is the HTTP error
      response; any other exception leaving an endpoint is uncaught.
    - The clock ([datetime.utcnow()]) is an argument [now], in whole
      seconds since the epoch, the unit of the [exp] claim.
    - The random salt drawn by the hasher and the success of the SMTP
      dialogue are arguments as well.
    - A compact token and a stored digest are kept in parsed form, with
      constructors for the strings that do not parse.
    - A string is the sequence of the bytes of its UTF-8 text.
    - An integer is a [Z]; the database driver refuses to bind one that
      does not fit 64 bits, and the range of [datetime] is outside the
      model.
    - A constructor of [exn] stands for the Python class of that name or
      one of its subclasses. *)

From Stdlib Require Import ZArith.
From stdpp Require Import base tactics option numbers strings list gmap.

Local Open Scope string_scope.
Local Open Scope list_scope.
Local Open Scope Z_scope.

(** ** Exceptions *)

Inductive exn : Type :=
| HTTPException (status_code : Z) (detail : string)
| JWTError
| UnknownHashError
| IntegrityError
| PasswordValueError
| ValueError
| OverflowError
| RequestValidationError.

Inductive result (A : Type) : Type :=
| Return (a : A)
| Raise (e : exn).
Arguments Return {A} a.
Arguments Raise {A} e.

#[global] Instance result_ret : MRet result := λ A a, Return a.

#[global] Instance result_bind : MBind result := λ A B k r,
  match r with
  | Return a => k a
  | Raise e => Raise e
  end.

(** ** JSON values carried by a token payload

    The claims of the tokens considered are strings and integers, as
    are those of every token that the service issues. *)

Inductive jval : Type :=
| JStr (s : string)
| JInt (n : Z).

(** ** External collaborators

    The keyed MAC behind HS256, the key derivation behind bcrypt, the
    size limit of the hasher and the signing secret read from the process
    environment.  They are left abstract: nothing below depends on how
    they compute. *)

Class Externals : Type := {
  (** [hmac_sha256 key (alg, payload)]: the signature over the protected
      header and the payload. *)
  hmac_sha256 : string → string * gmap string jval → string;
  (** [bcrypt salt secret]: the checksum stored next to the salt. *)
  bcrypt : string → string → string;
  (** passlib's [validate_secret]: the secret is no longer than
      [MAX_PASSWORD_SIZE], which the process environment can set. *)
  within_size : string → bool;
  (** [os.getenv("SECRET_KEY", "supersecretkey123")] *)
  SECRET_KEY : string;
}.

(** ** python-jose, as far as [main.py] calls it *)

Module jwt.

(** A compact serialization, parsed.  [Garbled] stands for every string
    that is not three base64url segments holding a JSON header and a
    JSON object. *)
Inductive token : Type :=
| Garbled (raw : string)
| Signed (alg : string) (payload : gmap string jval) (signature : string).

Section WithExternals.
Context `{Externals}.

(** [jwt.encode(claims, key, algorithm=...)].  A [datetime] under
    ["exp"] has already been turned into its integer timestamp. *)
Definition encode (claims : gmap string jval) (key algorithm : string) : token :=
  Signed algorithm claims (hmac_sha256 key (algorithm, claims)).

(** [exp < now] raises ExpiredSignatureError; an [exp] that is not an
    integer raises JWTClaimsError; an absent [exp] is not checked. *)
Definition validate_exp (claims : gmap string jval) (now : Z) : bool :=
  match claims !! "exp" with
  | None => true
  | Some (JInt exp) => negb (exp <? now)
  | Some (JStr _) => false
  end.

(** A subject, when present, must be a string. *)
Definition validate_sub (claims : gmap string jval) : bool :=
  match claims !! "sub" with
  | None => true
  | Some (JStr _) => true
  | Some (JInt _) => false
  end.

(** [jwt.decode(token, key, algorithms=[...])] at time [now]: parse,
    check the header's algorithm, check the signature, and only then
    look at the claims.  Every failure is a [JWTError]. *)
Definition decode (tok : token) (key : string) (algorithms : list string)
    (now : Z) : result (gmap string jval) :=
  match tok with
  | Garbled _ => Raise JWTError
  | Signed alg payload signature =>
      if negb (bool_decide (alg ∈ algorithms)) then Raise JWTError
      else if negb (String.eqb signature (hmac_sha256 key (alg, payload)))
           then Raise JWTError
      else if negb (validate_exp payload now) then Raise JWTError
      else if negb (validate_sub payload) then Raise JWTError
      else Return payload
  end.
End WithExternals.

End jwt.

(** ** passlib's [CryptContext(schemes=["bcrypt"])] *)

Module pwd_context.

(** A stored digest, parsed: [Bcrypt salt checksum] for a string of the
    shape [$2b$..$<salt><checksum>], [Malformed] for a string that starts
    like one and is none, [Unidentified] for any other string. *)
Inductive digest : Type :=
| Bcrypt (salt checksum : string)
| Unidentified (raw : string)
| Malformed (raw : string).

(** The byte that no secret may contain. *)
Definition NUL : Ascii.ascii :=
  Ascii.Ascii false false false false false false false false.

Fixpoint has_nul (secret : string) : bool :=
  match secret with
  | EmptyString => false
  | String c rest => bool_decide (c = NUL) || has_nul rest
  end.

Section WithExternals.
Context `{Externals}.

(** The secrets the hasher raises on: one beyond the size limit
    (PasswordSizeError) and one with a NUL byte (NullPasswordError). *)
Definition refused (secret : string) : bool :=
  negb (within_size secret) || has_nul secret.

(** The checksum of a secret: the key derivation reads its first 72
    bytes and no more. *)
Definition checksum_of (salt secret : string) : string :=
  bcrypt salt (String.substring 0 72 secret).

(** [pwd_context.hash(pw)], with the salt it draws. *)
Definition hash (salt pw : string) : result digest :=
  if refused pw then Raise PasswordValueError
  else Return (Bcrypt salt (checksum_of salt pw)).

(** [pwd_context.verify(plain, hashed)]: the scheme is identified
    first, and a string of no known scheme raises; then the digest is
    parsed; then the secret is hashed under the digest's salt. *)
Definition verify (plain : string) (hashed : digest) : result bool :=
  match hashed with
  | Unidentified _ => Raise UnknownHashError
  | Malformed _ => Raise ValueError
  | Bcrypt salt checksum =>
      if refused plain then Raise PasswordValueError
      else Return (String.eqb (checksum_of salt plain) checksum)
  end.
End WithExternals.

End pwd_context.

(** ** database.py: the [users] table *)

(** One row of [users].  [id] is the AUTOINCREMENT key; the nullable
    profile columns are options.  [password] holds the hasher's digest. *)
Record user : Type := {
  id : Z;
  username : option string;
  password : pwd_context.digest;
  email : string;
  age : option Z;
  location : option string;
  phone : option string;
  language : option string;
}.

(** A value bound to a [?] placeholder of a statement. *)
Inductive value : Type :=
| VText (s : string)
| VInt (n : Z).

(** The table is the list of its rows in key order, the order in which a
    scan returns them. *)
Definition init_db : list user := [].

(** [SELECT * FROM users WHERE email = ? OR username = ?], [fetchone()]. *)
Definition get_user_by_email_or_username (rows : list user) (identifier : string)
    : option user :=
  List.find (λ r, bool_decide (email r = identifier)
                  || bool_decide (username r = Some identifier)) rows.

(** [SELECT * FROM users WHERE email = ?], [fetchone()]. *)
Definition select_by_email (rows : list user) (e : string) : option user :=
  List.find (λ r, bool_decide (email r = e)) rows.

(** The integers that the driver binds to a placeholder: those of 64
    bits.  Binding any other raises OverflowError before the statement
    runs. *)
Definition fits_integer (n : Z) : bool :=
  (- 2 ^ 63 <=? n) && (n <? 2 ^ 63).

Definition bindable (val : value) : bool :=
  match val with
  | VText _ => true
  | VInt n => fits_integer n
  end.

(** The key given to the next inserted row: one more than the largest
    key in use. *)
Definition next_id (rows : list user) : Z :=
  1 + foldr (λ r m, Z.max (id r) m) 0 rows.

(** [INSERT INTO users (username, password, email, age, location, phone,
    language) VALUES (?, ?, ?, ?, ?, ?, ?)] under [email TEXT UNIQUE]. *)
Definition insert_user (rows : list user) (u : string) (pw : pwd_context.digest)
    (e : string) (a : option Z) (loc ph lang : option string)
    : result (list user) :=
  if negb (from_option fits_integer true a) then Raise OverflowError
  else if bool_decide (Exists (λ r, email r = e) rows) then Raise IntegrityError
  else Return (rows ++ [ {| id := next_id rows; username := Some u;
                            password := pw; email := e; age := a;
                            location := loc; phone := ph; language := lang |} ]).

(** One [name = ?] of a SET clause applied to a row.  The schema of the
    request body fixes the type of the value bound to each column. *)
Definition set_column (name : string) (val : value) (r : user) : user :=
  match val with
  | VText s =>
      if String.eqb name "username" then
        {| id := id r; username := Some s; password := password r;
           email := email r; age := age r; location := location r;
           phone := phone r; language := language r |}
      else if String.eqb name "location" then
        {| id := id r; username := username r; password := password r;
           email := email r; age := age r; location := Some s;
           phone := phone r; language := language r |}
      else if String.eqb name "phone" then
        {| id := id r; username := username r; password := password r;
           email := email r; age := age r; location := location r;
           phone := Some s; language := language r |}
      else if String.eqb name "language" then
        {| id := id r; username := username r; password := password r;
           email := email r; age := age r; location := location r;
           phone := phone r; language := Some s |}
      else r
  | VInt n =>
      if String.eqb name "age" then
        {| id := id r; username := username r; password := password r;
           email := email r; age := Some n; location := location r;
           phone := phone r; language := language r |}
      else r
  end.

(** [UPDATE users SET f1 = ?, f2 = ?, ... WHERE email = ?]. *)
Definition update_columns (rows : list user) (fields : list string)
    (values : list value) (e : string) : result (list user) :=
  if negb (forallb bindable values) then Raise OverflowError
  else Return
         (map (λ r, if bool_decide (email r = e)
                    then foldl (λ r' fv, set_column fv.1 fv.2 r') r
                           (zip fields values)
                    else r) rows).

(** [UPDATE users SET password = ? WHERE email = ?]. *)
Definition update_password (rows : list user) (hashed : pwd_context.digest)
    (e : string) : list user :=
  map (λ r, if bool_decide (email r = e)
            then {| id := id r; username := username r; password := hashed;
                    email := email r; age := age r; location := location r;
                    phone := phone r; language := language r |}
            else r) rows.

(** ** main.py *)

(** *** Config *)

Definition ALGORITHM : string := "HS256".
Definition ACCESS_TOKEN_EXPIRE_MINUTES : Z := 60.
Definition RESET_TOKEN_EXPIRE_MINUTES : Z := 15.
Definition FRONTEND_URL : string := "http://localhost:8501".

(** *** Schemas *)

Module RegisterUser.
Record t : Type := {
  username : string;
  email : string;
  password : string;
  age : option Z;
  location : option string;
  phone : option string;
  language : option string;
}.
End RegisterUser.

Module UpdateProfile.
Record t : Type := {
  username : option string;
  age : option Z;
  location : option string;
  phone : option string;
  language : option string;
}.
End UpdateProfile.

Module ResetPasswordRequest.
Record t : Type := {
  token : jwt.token;
  new_password : string;
}.
End ResetPasswordRequest.

(** *** What a request can observe and change *)

(** The message handed to the SMTP server: its recipient, its subject and
    the link in its body, [FRONTEND_URL/reset_password?token=<token>]. *)
Record mail : Type := {
  mail_to : string;
  mail_subject : string;
  link_base : string;
  link_token : jwt.token;
}.

(** Lines printed by [send_reset_email]. *)
Inductive printed : Type :=
| EmailSent (to_email : string)
| DebugLink (base : string) (tok : jwt.token)
| EmailFailed.

Record world : Type := {
  users : list user;
  outbox : list mail;
  console : list printed;
}.

Definition with_users (w : world) (rows : list user) : world :=
  {| users := rows; outbox := outbox w; console := console w |}.

(** The JSON bodies of the successful responses. *)
Inductive body : Type :=
| Message (message : string)
| Bearer (access_token : jwt.token) (token_type : string)
| Profile (username : option string) (email : string) (age : option Z)
    (location phone language : option string).

(** What the clock, the salt generator and the mail server contribute to
    one request. *)
Record env : Type := {
  now : Z;
  salt : string;
  smtp_ok : bool;
}.

Section Main.
Context `{Externals}.

(** *** Utils *)

Definition get_password_hash (salt pw : string) : result pwd_context.digest :=
  pwd_context.hash salt pw.

Definition verify_password (plain : string) (hashed : pwd_context.digest)
    : result bool :=
  pwd_context.verify plain hashed.

(** [to_encode = data.copy(); to_encode["exp"] = utcnow() +
    timedelta(minutes=minutes)], then signed. *)
Definition create_access_token (data : gmap string jval) (minutes : Z)
    (now : Z) : jwt.token :=
  let to_encode := <["exp" := JInt (now + 60 * minutes)]> data in
  jwt.encode to_encode SECRET_KEY ALGORITHM.

(** The claims of a token issued for subject [s]: what
    [create_access_token({"sub": s}, minutes)] signs at time [t0]. *)
Definition issued_payload (s : string) (minutes t0 : Z) : gmap string jval :=
  <["exp" := JInt (t0 + 60 * minutes)]> {[ "sub" := JStr s ]}.

(** The dependency of the two [/profile] routes. *)
Definition get_current_user (rows : list user) (token : jwt.token) (now : Z)
    : result user :=
  let try :=
    payload ← jwt.decode token SECRET_KEY [ALGORITHM] now;
    match payload !! "sub" with
    | Some (JStr e) =>
        if bool_decide (e = "")
        then Raise (HTTPException 401 "Invalid token")
        else Return e
    | Some (JInt _) (* ruled out by [jwt.validate_sub] *)
    | None => Raise (HTTPException 401 "Invalid token")
    end in
  match try with
  | Raise JWTError => Raise (HTTPException 401 "Invalid token")
  | Raise e => Raise e
  | Return e =>
      match select_by_email rows e with
      | None => Raise (HTTPException 401 "User not found")
      | Some row => Return row
      end
  end.

(** The whole body sits in a [try]; a failed dialogue only prints. *)
Definition send_reset_email (smtp_ok : bool) (to_email : string)
    (token : jwt.token) (w : world) : world :=
  if smtp_ok then
    {| users := users w;
       outbox := outbox w ++ [ {| mail_to := to_email;
                                  mail_subject := "Password Reset Request";
                                  link_base := FRONTEND_URL;
                                  link_token := token |} ];
       console := console w ++ [EmailSent to_email; DebugLink FRONTEND_URL token] |}
  else
    {| users := users w; outbox := outbox w;
       console := console w ++ [EmailFailed] |}.

(** *** Endpoints *)

(** [POST /register].  The parameters of the statement are evaluated
    first, the password hash among them; an exception other than
    IntegrityError passes the [except] clause. *)
Definition register (w : world) (user : RegisterUser.t) (salt : string)
    : result body * world :=
  let try :=
    hashed ← get_password_hash salt (RegisterUser.password user);
    insert_user (users w)
      (RegisterUser.username user)
      hashed
      (RegisterUser.email user)
      (RegisterUser.age user)
      (RegisterUser.location user)
      (RegisterUser.phone user)
      (RegisterUser.language user) in
  match try with
  | Return rows => (Return (Message "User registered successfully"), with_users w rows)
  | Raise IntegrityError => (Raise (HTTPException 400 "Email already registered"), w)
  | Raise e => (Raise e, w)
  end.

(** [POST /login]; the form's [username] field carries the identifier. *)
Definition login (w : world) (form_username form_password : string) (now : Z)
    : result body :=
  match get_user_by_email_or_username (users w) form_username with
  | None => Raise (HTTPException 401 "Invalid username/email or password")
  | Some user =>
      ok ← verify_password form_password (password user);
      if negb ok
      then Raise (HTTPException 401 "Invalid username/email or password")
      else
        let token := create_access_token {[ "sub" := JStr (email user) ]}
                       ACCESS_TOKEN_EXPIRE_MINUTES now in
        Return (Bearer token "bearer")
  end.

(** [GET /profile] *)
Definition get_profile (current_user : user) : result body :=
  Return (Profile (username current_user) (email current_user)
            (age current_user) (location current_user)
            (phone current_user) (language current_user)).

Definition getattr (payload : UpdateProfile.t) (name : string) : option value :=
  if String.eqb name "username" then VText <$> UpdateProfile.username payload
  else if String.eqb name "age" then VInt <$> UpdateProfile.age payload
  else if String.eqb name "location" then VText <$> UpdateProfile.location payload
  else if String.eqb name "phone" then VText <$> UpdateProfile.phone payload
  else if String.eqb name "language" then VText <$> UpdateProfile.language payload
  else None.

(** The loop that collects [fields] and [values]. *)
Definition collect (payload : UpdateProfile.t) : list string * list value :=
  foldl (λ fv name,
           match getattr payload name with
           | Some val => (fv.1 ++ [name], fv.2 ++ [val])
           | None => fv
           end)
        ([], []) ["username"; "age"; "location"; "phone"; "language"].

(** [PUT /profile] *)
Definition update_profile (w : world) (payload : UpdateProfile.t)
    (current_user : user) : result body * world :=
  let '(fields, values) := collect payload in
  match fields with
  | [] => (Return (Message "Nothing to update"), w)
  | _ :: _ =>
      match update_columns (users w) fields values (email current_user) with
      | Return rows =>
          (Return (Message "Profile updated successfully"), with_users w rows)
      | Raise e => (Raise e, w)
      end
  end.

(** [POST /forgot-password] *)
Definition forgot_password (w : world) (email_param : string) (now : Z)
    (smtp_ok : bool) : result body * world :=
  match get_user_by_email_or_username (users w) email_param with
  | None => (Raise (HTTPException 404 "Email not found"), w)
  | Some user =>
      let reset_token := create_access_token {[ "sub" := JStr (email user) ]}
                           RESET_TOKEN_EXPIRE_MINUTES now in
      (Return (Message "Password reset email sent"),
       send_reset_email smtp_ok (email user) reset_token w)
  end.

(** [POST /reset-password] *)
Definition reset_password (w : world) (payload : ResetPasswordRequest.t)
    (salt : string) (now : Z) : result body * world :=
  let try :=
    data ← jwt.decode (ResetPasswordRequest.token payload) SECRET_KEY [ALGORITHM] now;
    match data !! "sub" with
    | Some (JStr e) =>
        if bool_decide (e = "")
        then Raise (HTTPException 400 "Invalid token")
        else Return e
    | Some (JInt _) (* ruled out by [jwt.validate_sub] *)
    | None => Raise (HTTPException 400 "Invalid token")
    end in
  match try with
  | Raise JWTError => (Raise (HTTPException 400 "Invalid or expired token"), w)
  | Raise e => (Raise e, w)
  | Return e =>
      match get_password_hash salt (ResetPasswordRequest.new_password payload) with
      | Return hashed_pw =>
          (Return (Message "Password reset successful"),
           with_users w (update_password (users w) hashed_pw e))
      | Raise err => (Raise err, w)
      end
  end.

(** *** The HTTP surface *)

Inductive request : Type :=
| POST_register (user : RegisterUser.t)
| POST_login (username password : string)
| GET_profile (token : jwt.token)
| PUT_profile (token : jwt.token) (payload : UpdateProfile.t)
| POST_forgot_password (email : string)
| POST_reset_password (payload : ResetPasswordRequest.t).

(** One request served: the routes with their dependencies resolved. *)
Definition serve (w : world) (ev : env) (req : request) : result body * world :=
  match req with
  | POST_register user => register w user (salt ev)
  | POST_login u p =>
      (* both fields of the form are required; an empty one counts as
         missing and the request does not reach [login] *)
      if bool_decide (u = "") || bool_decide (p = "")
      then (Raise RequestValidationError, w)
      else (login w u p (now ev), w)
  | GET_profile token =>
      (current_user ← get_current_user (users w) token (now ev);
       get_profile current_user, w)
  | PUT_profile token payload =>
      match get_current_user (users w) token (now ev) with
      | Return current_user => update_profile w payload current_user
      | Raise e => (Raise e, w)
      end
  | POST_forgot_password e => forgot_password w e (now ev) (smtp_ok ev)
  | POST_reset_password payload => reset_password w payload (salt ev) (now ev)
  end.

(** A run of the service from a given state. *)
Fixpoint run (w : world) (trace : list (env * request)) : world :=
  match trace with
  | [] => w
  | (ev, req) :: rest => run (serve w ev req).2 rest
  end.

End Main.

(** ** The ways a presented token can be bad *)

Section BadTokens.
Context `{Externals}.



End BadTokens.

(** ** Vocabulary of the frame properties *)

(** The value of a nullable column after a partial update that may or
    may not supply it. *)
Definition supplied {A : Type} (new old : option A) : option A :=
  match new with
  | Some v => Some v
  | None => old
  end.

(** The partial update as the specification words it: every supplied
    field replaces the stored one, every other column is kept.  It is
    compared below with the SET clause that [update_profile] assembles. *)
Definition patch (payload : UpdateProfile.t) (r : user) : user :=
  {| id := id r;
     username := supplied (UpdateProfile.username payload) (username r);
     password := password r;
     email := email r;
     age := supplied (UpdateProfile.age payload) (age r);
     location := supplied (UpdateProfile.location payload) (location r);
     phone := supplied (UpdateProfile.phone payload) (phone r);
     language := supplied (UpdateProfile.language payload) (language r) |}.

Definition empty_update (payload : UpdateProfile.t) : Prop :=
  UpdateProfile.username payload = None
  ∧ UpdateProfile.age payload = None
  ∧ UpdateProfile.location payload = None
  ∧ UpdateProfile.phone payload = None
  ∧ UpdateProfile.language payload = None.

(** [r'] is the later state of the row [r], and no profile attribute
    that [r] has set is null in [r']. *)
Definition never_nulled (r r' : user) : Prop :=
  id r' = id r
  ∧ (is_Some (username r) → is_Some (username r'))
  ∧ (is_Some (age r) → is_Some (age r'))
  ∧ (is_Some (location r) → is_Some (location r'))
  ∧ (is_Some (phone r) → is_Some (phone r'))
  ∧ (is_Some (language r) → is_Some (language r')).

(** The five profile attributes agree. *)
Definition same_profile (r r' : user) : Prop :=
  username r' = username r
  ∧ age r' = age r
  ∧ location r' = location r
  ∧ phone r' = phone r
  ∧ language r' = language r.

(** Every field that the body leaves null keeps its stored value. *)
Definition null_fields_kept (payload : UpdateProfile.t) (r r' : user) : Prop :=
  (UpdateProfile.username payload = None → username r' = username r)
  ∧ (UpdateProfile.age payload = None → age r' = age r)
  ∧ (UpdateProfile.location payload = None → location r' = location r)
  ∧ (UpdateProfile.phone payload = None → phone r' = phone r)
  ∧ (UpdateProfile.language payload = None → language r' = language r).

(** ** A concrete environment

    Stand-ins for the collaborators, used where a statement is evaluated
    on concrete data.  The MAC is the key followed by the header's
    algorithm and the subject it covers; the key derivation is the salt
    followed by the secret. *)

Definition sample_mac (key : string) (input : string * gmap string jval) : string :=
  key +:+ "|" +:+ input.1 +:+ "|" +:+
  match input.2 !! "sub" with
  | Some (JStr s) => s
  | _ => ""
  end.

Definition sample_kdf (salt secret : string) : string :=
  salt +:+ "$" +:+ secret.

Definition sample_externals : Externals :=
  {| hmac_sha256 := sample_mac;
     bcrypt := sample_kdf;
     within_size := λ secret, (String.length secret <=? 4096)%nat;
     SECRET_KEY := "supersecretkey123" |}.

Definition alice : user :=
  {| id := 1; username := Some "alice";
     password := pwd_context.Bcrypt "s0" (sample_kdf "s0" "pw1");
     email := "a@x.com"; age := None; location := None; phone := None;
     language := None |}.

Definition alice_again : RegisterUser.t :=
  {| RegisterUser.username := "alice2"; RegisterUser.email := "a@x.com";
     RegisterUser.password := "other"; RegisterUser.age := Some 40;
     RegisterUser.location := None; RegisterUser.phone := None;
     RegisterUser.language := None |}.

Definition bob_form : RegisterUser.t :=
  {| RegisterUser.username := "bob"; RegisterUser.email := "b@x.com";
     RegisterUser.password := "pw2"; RegisterUser.age := None;
     RegisterUser.location := Some "NYC"; RegisterUser.phone := None;
     RegisterUser.language := None |}.

(** A row that [register] accepts: the schema asks only that the email
    be a string. *)
Definition nameless : user :=
  {| id := 1; username := Some "nobody";
     password := pwd_context.Bcrypt "s0" (sample_kdf "s0" "pw0");
     email := ""; age := None; location := None; phone := None;
     language := None |}.

Definition nameless_world : world :=
  {| users := [nameless]; outbox := []; console := [] |}.

(** Secrets for the edges of the hasher: two that differ only after
    their seventy-second byte, and one with a NUL byte. *)
Fixpoint letters (n : nat) : string :=
  match n with
  | O => ""
  | S m => "a" +:+ letters m
  end.

Definition long_old : string := letters 72 +:+ "X".
Definition long_new : string := letters 72 +:+ "Y".
Definition nul_password : string := "pw" +:+ String pwd_context.NUL "1".

(** Bodies with an age that does not fit 64 bits. *)
Definition alice_overflow : RegisterUser.t :=
  {| RegisterUser.username := "alice2"; RegisterUser.email := "a@x.com";
     RegisterUser.password := "other"; RegisterUser.age := Some (2 ^ 63);
     RegisterUser.location := None; RegisterUser.phone := None;
     RegisterUser.language := None |}.

(** A body with a fresh email and a password that has a NUL byte. *)
Definition eve_form : RegisterUser.t :=
  {| RegisterUser.username := "eve"; RegisterUser.email := "e@x.com";
     RegisterUser.password := nul_password; RegisterUser.age := None;
     RegisterUser.location := None; RegisterUser.phone := None;
     RegisterUser.language := None |}.

Definition age_overflow : UpdateProfile.t :=
  {| UpdateProfile.username := None; UpdateProfile.age := Some (2 ^ 63);
     UpdateProfile.location := Some "NYC"; UpdateProfile.phone := None;
     UpdateProfile.language := None |}.



Definition sample_world : world :=
  {| users := [alice]; outbox := []; console := [] |}.

Definition sample_env : env :=
  {| now := 2000; salt := "s1"; smtp_ok := true |}.

(** The access token that a login of [alice] at time 1000 returns. *)
Definition alice_token : jwt.token :=
  jwt.Signed "HS256" (<["exp" := JInt 4600]> {[ "sub" := JStr "a@x.com" ]})
    "supersecretkey123|HS256|a@x.com".

Definition age_31 : UpdateProfile.t :=
  {| UpdateProfile.username := None; UpdateProfile.age := Some 31;
     UpdateProfile.location := None; UpdateProfile.phone := None;
     UpdateProfile.language := None |}.

Definition no_fields : UpdateProfile.t :=
  {| UpdateProfile.username := None; UpdateProfile.age := None;
     UpdateProfile.location := None; UpdateProfile.phone := None;
     UpdateProfile.language := None |}.

Definition sample_trace : list (env * request) :=
  [ (sample_env, PUT_profile alice_token age_31);
    (sample_env, PUT_profile alice_token no_fields);
    (sample_env, POST_register bob_form);
    (sample_env, POST_reset_password
                   {| ResetPasswordRequest.token := alice_token;
                      ResetPasswordRequest.new_password := "pw9" |}) ].

Definition alice_form : RegisterUser.t :=
  {| RegisterUser.username := "alice"; RegisterUser.email := "a@x.com";
     RegisterUser.password := "pw1"; RegisterUser.age := None;
     RegisterUser.location := None; RegisterUser.phone := None;
     RegisterUser.language := None |}.

Definition to_nyc : UpdateProfile.t :=
  {| UpdateProfile.username := None; UpdateProfile.age := None;
     UpdateProfile.location := Some "NYC"; UpdateProfile.phone := None;
     UpdateProfile.language := None |}.

Definition empty_world : world :=
  {| users := init_db; outbox := []; console := [] |}.

(** Two rows, the first of which carries the email of the second as its
    username. *)
Definition shadowing_world : world :=
  {| users :=
       [ {| id := 1; username := Some "b@x.com";
            password := pwd_context.Bcrypt "s0" (sample_kdf "s0" "pwA");
            email := "a@x.com"; age := None; location := None;
            phone := None; language := None |};
         {| id := 2; username := Some "bob";
            password := pwd_context.Bcrypt "s0" (sample_kdf "s0" "pwB");
            email := "b@x.com"; age := None; location := None;
            phone := None; language := None |} ];
     outbox := []; console := [] |}.

(** ** Vocabulary of the invariants *)

(** No two rows share an email: the [UNIQUE] constraint of the schema. *)
Definition unique_emails (rows : list user) : Prop := NoDup (email <$> rows).

(** No two rows share a key. *)
Definition unique_ids (rows : list user) : Prop := NoDup (id <$> rows).

Definition bcrypt_digest (d : pwd_context.digest) : Prop :=
  ∃ salt checksum, d = pwd_context.Bcrypt salt checksum.


(** The key and the email of every row, in table order. *)
Definition identities (rows : list user) : list (Z * string) :=
  (λ r, (id r, email r)) <$> rows.





Section Explained.
Context `{Externals}.



End Explained.

(** The mail carries a token whose subject is its recipient. *)
Definition addressed (m : mail) : Prop :=
  ∃ alg payload signature,
    link_token m = jwt.Signed alg payload signature
    ∧ payload !! "sub" = Some (JStr (mail_to m)).

(** Every mail handed to the server goes to the email of a stored row and
    carries a token for that very email. *)
Definition mail_to_owners (w : world) : Prop :=
  Forall (λ m, addressed m ∧ mail_to m ∈ email <$> users w) (outbox w).

(** Two authentication outcomes name the same account, or are the same
    failure. *)
Definition same_account (before after : result user) : Prop :=
  match before, after with
  | Return r, Return r' => id r' = id r ∧ email r' = email r
  | Raise e, Raise e' => e' = e
  | _, _ => False
  end.

(** ** frontend/app.py and frontend/pages/reset_password.py

    The reference client, as far as it decides which request to send: one
    function per button, from the values of the widgets to the request
    handed to the HTTP library, or to [None] when the form answers by
    itself.  What the page then draws is not modelled; a widget is taken
    to return a value of its type, and a number input to raise for an
    initial value outside its bounds.  [str.strip] is a parameter. *)

(** The choices of the language selector. *)
Definition LANGUAGES : list string :=
  [""; "English"; "Hindi"; "Telugu"; "Tamil"; "Kannada"; "Malayalam";
   "Bengali"; "Marathi"; "Gujarati"; "Urdu"].

(** The truth value of a string. *)
Definition truthy (s : string) : bool := negb (String.eqb s "").

(** [s or None] *)
Definition or_none (s : string) : option string :=
  if truthy s then Some s else None.

(** [profile.get(key) or ""] *)
Definition or_empty (o : option string) : string :=
  match o with
  | Some s => s
  | None => ""
  end.

(** [int(profile.get("age") or 0)] *)
Definition or_zero (o : option Z) : Z :=
  match o with
  | Some n => n
  | None => 0
  end.

(** [l.index(x)]; [None] stands for the ValueError of a missing item. *)
Fixpoint index_of (x : string) (l : list string) : option nat :=
  match l with
  | [] => None
  | y :: rest => if String.eqb y x then Some 0%nat else S <$> index_of x rest
  end.

(** The fields of the JSON object that [GET /profile] returned. *)
Definition profile_username (profile : body) : option string :=
  match profile with Profile u _ _ _ _ _ => u | _ => None end.
Definition profile_age (profile : body) : option Z :=
  match profile with Profile _ _ a _ _ _ => a | _ => None end.
Definition profile_location (profile : body) : option string :=
  match profile with Profile _ _ _ l _ _ => l | _ => None end.
Definition profile_phone (profile : body) : option string :=
  match profile with Profile _ _ _ _ p _ => p | _ => None end.
Definition profile_language (profile : body) : option string :=
  match profile with Profile _ _ _ _ _ g => g | _ => None end.

(** The widgets of the signup tab. *)
Record signup_form : Type := {
  signup_username : string;
  signup_email : string;
  signup_password : string;
  signup_age : Z;
  signup_location : string;
  signup_phone : string;
  signup_language : string;
}.

(** The widgets of the profile page. *)
Record profile_form : Type := {
  new_username : string;
  new_location : string;
  new_language : string;
  new_age : Z;
  new_phone : string;
}.

(** The dictionary [updates]: per key, absent, or present with a value
    that may be null (the age, when present, is an integer). *)
Record updates : Type := {
  upd_username : option (option string);
  upd_location : option (option string);
  upd_language : option (option string);
  upd_age : option Z;
  upd_phone : option (option string);
}.

(** [api_register]: the JSON body of [POST /register]. *)
Definition api_register (username email password : string) (age : option Z)
    (location phone : string) (language : option string) : request :=
  POST_register
    {| RegisterUser.username := username;
       RegisterUser.email := email;
       RegisterUser.password := password;
       RegisterUser.age :=
         match age with
         | Some a => if a =? 0 then None else Some a
         | None => None
         end;
       RegisterUser.location := or_none location;
       RegisterUser.phone := or_none phone;
       RegisterUser.language :=
         match language with
         | Some l => or_none l
         | None => None
         end |}.

(** [api_update_profile]: the JSON body of [PUT /profile]; a key that is
    absent and a key that is null both reach the schema as [None]. *)
Definition api_update_profile (token : jwt.token) (u : updates) : request :=
  PUT_profile token
    {| UpdateProfile.username := mjoin (upd_username u);
       UpdateProfile.age := upd_age u;
       UpdateProfile.location := mjoin (upd_location u);
       UpdateProfile.phone := mjoin (upd_phone u);
       UpdateProfile.language := mjoin (upd_language u) |}.

(** [not updates] *)
Definition no_updates (u : updates) : bool :=
  match upd_username u, upd_location u, upd_language u, upd_age u, upd_phone u with
  | None, None, None, None, None => true
  | _, _, _, _, _ => false
  end.

(** The index handed to the language selector of the profile page. *)
Definition language_index (profile : body) : option nat :=
  match profile_language profile with
  | Some l => if truthy l then index_of l LANGUAGES else Some 0%nat
  | None => Some 0%nat
  end.

(** [st.number_input(..., min_value=0, max_value=120, value=...)]
    raises for a value outside its bounds. *)
Definition age_in_widget_range (n : Z) : bool :=
  (0 <=? n) && (n <=? 120).

(** The token of the reset link, as the page tests it. *)
Definition token_truthy (query : option jwt.token) : bool :=
  match query with
  | None => false
  | Some (jwt.Garbled raw) => truthy raw
  | Some (jwt.Signed _ _ _) => true
  end.

Section Frontend.
Variable strip : string → string.

(** The "Login" button. *)
Definition login_clicked (login_id password : string) : option request :=
  if truthy login_id && truthy password
  then Some (POST_login login_id password)
  else None.

(** The "Register" button. *)
Definition register_clicked (f : signup_form) : option request :=
  if truthy (signup_username f) && truthy (signup_email f)
     && truthy (signup_password f)
  then Some (api_register (signup_username f) (signup_email f)
               (signup_password f)
               (if signup_age f >? 0 then Some (signup_age f) else None)
               (strip (signup_location f)) (strip (signup_phone f))
               (if truthy (signup_language f) then Some (signup_language f)
                else None))
  else None.

(** The "Send Reset Link" button. *)
Definition forgot_clicked (forgot_email : string) : option request :=
  if truthy forgot_email then Some (POST_forgot_password forgot_email) else None.

(** The dictionary that "Save Changes" fills. *)
Definition collect_updates (profile : body) (f : profile_form) : updates :=
  {| upd_username :=
       if negb (String.eqb (new_username f) (or_empty (profile_username profile)))
       then Some (or_none (strip (new_username f))) else None;
     upd_location :=
       if negb (String.eqb (new_location f) (or_empty (profile_location profile)))
       then Some (or_none (strip (new_location f))) else None;
     upd_language :=
       if negb (String.eqb (new_language f) (or_empty (profile_language profile)))
       then Some (or_none (new_language f)) else None;
     upd_age :=
       if negb (new_age f =? or_zero (profile_age profile))
       then Some (new_age f) else None;
     upd_phone :=
       if negb (String.eqb (new_phone f) (or_empty (profile_phone profile)))
       then Some (or_none (strip (new_phone f))) else None |}.

(** The "Save Changes" button, with the session's token. *)
Definition save_clicked (token : jwt.token) (profile : body) (f : profile_form)
    : option request :=
  let u := collect_updates profile f in
  if no_updates u then None else Some (api_update_profile token u).

(** The profile page from the drawing of its widgets to "Save Changes":
    [None] when the script stops while drawing, because the index of the
    language selector cannot be computed or because the age to show is
    outside the range of its number input; otherwise what the button
    sends, if anything. *)
Definition profile_page_save (token : jwt.token) (profile : body)
    (f : profile_form) : option (option request) :=
  match language_index profile with
  | None => None
  | Some _ =>
      if age_in_widget_range (or_zero (profile_age profile))
      then Some (save_clicked token profile f)
      else None
  end.

End Frontend.

(** The "Save Password" button of the reset page, with the [token]
    parameter of the link. *)
Definition save_password_clicked (query : option jwt.token)
    (new_pw confirm_pw : string) : option request :=
  match query with
  | Some token =>
      if negb (token_truthy query) then None
      else if negb (truthy new_pw) || negb (truthy confirm_pw) then None
      else if negb (String.eqb new_pw confirm_pw) then None
      else Some (POST_reset_password
                   {| ResetPasswordRequest.token := token;
                      ResetPasswordRequest.new_password := new_pw |})
  | None => None
  end.

(** The requests that the client can send: the five buttons and the
    profile read of the profile page. *)
Definition client_built (strip : string → string) (req : request) : Prop :=
  (∃ login_id password, login_clicked login_id password = Some req)
  ∨ (∃ f, register_clicked strip f = Some req)
  ∨ (∃ forgot_email, forgot_clicked forgot_email = Some req)
  ∨ (∃ token, req = GET_profile token)
  ∨ (∃ token profile f, save_clicked strip token profile f = Some req)
  ∨ (∃ query new_pw confirm_pw,
       save_password_clicked query new_pw confirm_pw = Some req).

(** A stored language that the selector of the profile page can show. *)
Definition offered (g : option string) : Prop :=
  g = None ∨ ∃ s, g = Some s ∧ s ∈ LANGUAGES.

(** A stand-in for [str.strip] that removes spaces at both ends. *)
Fixpoint drop_spaces (s : string) : string :=
  match s with
  | String (Ascii.Ascii false false false false false true false false) rest =>
      drop_spaces rest
  | _ => s
  end.

Definition sample_strip (s : string) : string :=
  String.rev (drop_spaces (String.rev (drop_spaces s))).

Definition bob_signup : signup_form :=
  {| signup_username := "bob"; signup_email := "b@x.com";
     signup_password := "pw2"; signup_age := 0;
     signup_location := "  NYC "; signup_phone := "   ";
     signup_language := "Hindi" |}.

Definition alice_edit : profile_form :=
  {| new_username := ""; new_location := " Paris"; new_language := "";
     new_age := 31; new_phone := "" |}.

(** * Properties *)

(** ** Worked examples *)

Example login_alice :
  login (H := sample_externals) sample_world "a@x.com" "pw1" 1000
  = Return (Bearer (jwt.Signed "HS256"
                      (<["exp" := JInt 4600]> {[ "sub" := JStr "a@x.com" ]})
                      "supersecretkey123|HS256|a@x.com") "bearer").
Proof. vm_compute. reflexivity. Qed.

(** The scenario of the specification: register, log in, read the
    profile, set the location, read the profile again. *)
Example register_login_update :
  let E := sample_externals in
  let r1 := serve (H := E) empty_world sample_env (POST_register alice_form) in
  let r2 := serve (H := E) r1.2 sample_env (POST_login "a@x.com" "pw1") in
  let tok := create_access_token (H := E) {[ "sub" := JStr "a@x.com" ]} 60 2000 in
  let r3 := serve (H := E) r2.2 sample_env (GET_profile tok) in
  let r4 := serve (H := E) r3.2 sample_env (PUT_profile tok to_nyc) in
  let r5 := serve (H := E) r4.2 sample_env (GET_profile tok) in
  r1.1 = Return (Message "User registered successfully")
  ∧ r2.1 = Return (Bearer tok "bearer")
  ∧ r3.1 = Return (Profile (Some "alice") "a@x.com" None None None None)
  ∧ r4.1 = Return (Message "Profile updated successfully")
  ∧ r5.1 = Return (Profile (Some "alice") "a@x.com" None (Some "NYC") None None).
Proof. vm_compute. repeat split. Qed.

(** A token is still accepted at the very second of its expiry. *)
Example accepted_at_expiry :
  get_current_user (H := sample_externals) [alice] alice_token 4600 = Return alice.
Proof. vm_compute. reflexivity. Qed.

(** An email that an earlier row carries as its username resolves to that
    earlier row: the reset mail for ["b@x.com"] goes to ["a@x.com"]. *)
Example forgot_password_shadowed :
  mail_to <$> outbox (forgot_password (H := sample_externals) shadowing_world
                        "b@x.com" 1000 true).2
  = ["a@x.com"].
Proof. vm_compute. reflexivity. Qed.

(** ** Tokens *)

Section TokenFacts.
Context `{Externals}.

Lemma algorithm_allowed : bool_decide (ALGORITHM ∈ [ALGORITHM]) = true.
Proof. apply bool_decide_eq_true_2. by constructor. Qed.

Lemma issued_payload_exp s minutes t0 :
  issued_payload s minutes t0 !! "exp" = Some (JInt (t0 + 60 * minutes)).
Proof. unfold issued_payload. by rewrite lookup_insert_eq. Qed.

Lemma issued_payload_sub s minutes t0 :
  issued_payload s minutes t0 !! "sub" = Some (JStr s).
Proof.
  unfold issued_payload.
  rewrite lookup_insert_ne by done. by rewrite lookup_singleton_eq.
Qed.

Lemma issued_shape s minutes t0 :
  create_access_token {[ "sub" := JStr s ]} minutes t0
  = jwt.Signed ALGORITHM (issued_payload s minutes t0)
      (hmac_sha256 SECRET_KEY (ALGORITHM, issued_payload s minutes t0)).
Proof. reflexivity. Qed.

(** Decoding an issued token depends on the clock alone. *)
Lemma decode_issued s minutes t0 now :
  jwt.decode (create_access_token {[ "sub" := JStr s ]} minutes t0)
    SECRET_KEY [ALGORITHM] now
  = if t0 + 60 * minutes <? now then Raise JWTError
    else Return (issued_payload s minutes t0).
Proof.
  rewrite issued_shape. unfold jwt.decode.
  rewrite algorithm_allowed, String.eqb_refl. simpl.
  unfold jwt.validate_exp, jwt.validate_sub.
  rewrite issued_payload_exp, issued_payload_sub.
  by destruct (t0 + 60 * minutes <? now).
Qed.

Lemma current_user_issued rows s minutes t0 now :
  get_current_user rows (create_access_token {[ "sub" := JStr s ]} minutes t0) now
  = if t0 + 60 * minutes <? now then Raise (HTTPException 401 "Invalid token")
    else if bool_decide (s = "") then Raise (HTTPException 401 "Invalid token")
    else match select_by_email rows s with
         | None => Raise (HTTPException 401 "User not found")
         | Some row => Return row
         end.
Proof.
  unfold get_current_user. rewrite decode_issued.
  destruct (t0 + 60 * minutes <? now); [done|].
  simpl. rewrite issued_payload_sub.
  by destruct (bool_decide (s = "")).
Qed.

(** C1 (as amended): a token issued for a non-empty subject [s] with a
    lifetime of [minutes] carries [exp = t0 + 60 * minutes] and the
    subject [s]; at every time strictly before that expiry it decodes
    to a payload with subject [s] and authenticates the stored user of
    that email; at every time after it, it is rejected. *)
Theorem issue_then_verify (s : string) (minutes t0 : Z) :
  s ≠ "" →
  let tok := create_access_token {[ "sub" := JStr s ]} minutes t0 in
  let expiry := t0 + 60 * minutes in
  (∃ payload signature,
      tok = jwt.Signed ALGORITHM payload signature
      ∧ payload !! "exp" = Some (JInt expiry)
      ∧ payload !! "sub" = Some (JStr s))
  ∧ (∀ now, now < expiry →
      (∃ payload, jwt.decode tok SECRET_KEY [ALGORITHM] now = Return payload
                  ∧ payload !! "sub" = Some (JStr s))
      ∧ ∀ rows row, select_by_email rows s = Some row →
                    get_current_user rows tok now = Return row)
  ∧ (∀ now, expiry < now →
      jwt.decode tok SECRET_KEY [ALGORITHM] now = Raise JWTError
      ∧ ∀ rows, get_current_user rows tok now
                = Raise (HTTPException 401 "Invalid token")).
Proof.
  intros Hs tok expiry. subst tok expiry. split; [|split].
  - eexists _, _. rewrite issued_shape. split; [reflexivity|].
    split; [apply issued_payload_exp | apply issued_payload_sub].
  - intros now Hnow.
    assert ((t0 + 60 * minutes <? now) = false) as Hlt by (apply Z.ltb_ge; lia).
    split.
    + eexists. rewrite decode_issued, Hlt. split; [reflexivity|].
      apply issued_payload_sub.
    + intros rows row Hrow. rewrite current_user_issued, Hlt.
      rewrite bool_decide_eq_false_2 by done. by rewrite Hrow.
  - intros now Hnow.
    assert ((t0 + 60 * minutes <? now) = true) as Hlt by (apply Z.ltb_lt; lia).
    split.
    + by rewrite decode_issued, Hlt.
    + intros rows. by rewrite current_user_issued, Hlt.
Qed.

End TokenFacts.

Lemma issue_then_verify_witness :
  "a@x.com" ≠ ""
  ∧ get_current_user (H := sample_externals) [alice]
      (create_access_token (H := sample_externals) {[ "sub" := JStr "a@x.com" ]} 60 1000)
      4599 = Return alice
  ∧ get_current_user (H := sample_externals) [alice]
      (create_access_token (H := sample_externals) {[ "sub" := JStr "a@x.com" ]} 60 1000)
      4601 = Raise (HTTPException 401 "Invalid token").
Proof.
  assert ("a@x.com" ≠ "") as Hne by discriminate.
  split; [exact Hne|].
  destruct (issue_then_verify (H := sample_externals) "a@x.com" 60 1000 Hne)
    as (_ & Hbefore & Hafter).
  split.
  - apply (Hbefore 4599); [lia | reflexivity].
  - apply (Hafter 4601). lia.
Defined.

(** C1 as stated fails for the empty subject: a stored user whose email
    is the empty string receives a token that the verifier rejects
    before its expiry. *)
Lemma issue_then_verify_empty_subject :
  ¬ (∀ (E : Externals) (s : string) (minutes t0 now : Z) rows row,
        now < t0 + 60 * minutes →
        select_by_email rows s = Some row →
        get_current_user rows
          (create_access_token {[ "sub" := JStr s ]} minutes t0) now
        = Return row).
Proof.
  intros Hclaim.
  specialize (Hclaim sample_externals "" 60 0 10 [nameless] nameless).
  vm_compute in Hclaim.
  specialize (Hclaim eq_refl eq_refl). discriminate.
Qed.

(** ** Authenticated requests *)

Section Authentication.
Context `{Externals}.

Lemma decode_raises tok key algorithms now e :
  jwt.decode tok key algorithms now = Raise e → e = JWTError.
Proof.
  unfold jwt.decode. destruct tok as [raw|alg payload signature].
  - congruence.
  - repeat match goal with
           | |- context [if ?b then _ else _] => destruct b
           end; congruence.
Qed.

Lemma current_user_decode_error rows tok now :
  jwt.decode tok SECRET_KEY [ALGORITHM] now = Raise JWTError →
  get_current_user rows tok now = Raise (HTTPException 401 "Invalid token").
Proof. intros Hd. unfold get_current_user. by rewrite Hd. Qed.





End Authentication.


(** ** The password hasher *)

Section Hasher.
Context `{Externals}.

Lemma hash_accepted salt p :
  pwd_context.refused p = false →
  get_password_hash salt p
  = Return (pwd_context.Bcrypt salt (pwd_context.checksum_of salt p)).
Proof. intros Hp. unfold get_password_hash, pwd_context.hash. by rewrite Hp. Qed.

Lemma hash_refused salt p :
  pwd_context.refused p = true →
  get_password_hash salt p = Raise PasswordValueError.
Proof. intros Hp. unfold get_password_hash, pwd_context.hash. by rewrite Hp. Qed.

Lemma verify_bcrypt salt p c :
  pwd_context.refused p = false →
  verify_password p (pwd_context.Bcrypt salt c)
  = Return (String.eqb (pwd_context.checksum_of salt p) c).
Proof. intros Hp. unfold verify_password, pwd_context.verify. by rewrite Hp. Qed.

Lemma hash_verify_same salt p :
  pwd_context.refused p = false →
  verify_password p (pwd_context.Bcrypt salt (pwd_context.checksum_of salt p))
  = Return true.
Proof. intros Hp. rewrite verify_bcrypt by done. by rewrite String.eqb_refl. Qed.

Lemma verify_false_inv p d :
  verify_password p d = Return false →
  pwd_context.refused p = false ∧ bcrypt_digest d.
Proof.
  unfold verify_password, pwd_context.verify.
  destruct d as [salt c|raw|raw]; [|done..].
  destruct (pwd_context.refused p); [done|]. intros _. split; [done|].
  by eexists _, _.
Qed.

(** C9 (as amended): a plaintext that the hasher accepts verifies
    against its own hash under every salt.  Against the hash of another
    plaintext, an accepted plaintext is answered [True] or [False] and
    never an exception: [False] exactly when the key derivation gives the
    first 72 bytes of the two different checksums under the hash's salt,
    hence [True] whenever the two agree on their first 72 bytes.
    Verification returns [False] only for a well-formed digest and an
    accepted plaintext: on a string of no known scheme it raises
    UnknownHashError, on a malformed bcrypt string ValueError, and on a
    refused plaintext, as hashing does, PasswordValueError. *)
Theorem hash_verify_contract :
  (∀ salt p, pwd_context.refused p = false →
     ∃ d, get_password_hash salt p = Return d
          ∧ verify_password p d = Return true)
  ∧ (∀ salt p q d,
       pwd_context.refused p = false →
       get_password_hash salt q = Return d →
       (verify_password p d = Return true ∨ verify_password p d = Return false)
       ∧ (verify_password p d = Return false
          ↔ bcrypt salt (String.substring 0 72 p)
            ≠ bcrypt salt (String.substring 0 72 q))
       ∧ (String.substring 0 72 p = String.substring 0 72 q →
          verify_password p d = Return true))
  ∧ (∀ p d, verify_password p d = Return false →
            pwd_context.refused p = false ∧ bcrypt_digest d)
  ∧ (∀ p raw,
       verify_password p (pwd_context.Unidentified raw) = Raise UnknownHashError
       ∧ verify_password p (pwd_context.Malformed raw) = Raise ValueError)
  ∧ (∀ salt p c, pwd_context.refused p = true →
       verify_password p (pwd_context.Bcrypt salt c) = Raise PasswordValueError
       ∧ get_password_hash salt p = Raise PasswordValueError).
Proof.
  split; [|split; [|split; [|split]]].
  - intros salt p Hp. eexists. split; [by apply hash_accepted|].
    by apply hash_verify_same.
  - intros salt p q d Hp Hq.
    unfold get_password_hash, pwd_context.hash in Hq.
    destruct (pwd_context.refused q); [done|]. injection Hq as <-.
    rewrite verify_bcrypt by done. unfold pwd_context.checksum_of.
    destruct (String.eqb_spec (bcrypt salt (String.substring 0 72 p))
                (bcrypt salt (String.substring 0 72 q))) as [Heq|Hne].
    + split; [by left|]. split; [split; [done | by intros Hne]|done].
    + split; [by right|]. split; [done|]. intros Hsame.
      destruct Hne. by rewrite Hsame.
  - apply verify_false_inv.
  - intros p raw. by split.
  - intros salt p c Hp. split; [|by apply hash_refused].
    unfold verify_password, pwd_context.verify. by rewrite Hp.
Qed.

End Hasher.

Lemma hash_verify_contract_witness :
  (∃ d, get_password_hash (H := sample_externals) "s0" "pw1" = Return d
        ∧ verify_password (H := sample_externals) "pw1" d = Return true)
  ∧ verify_password (H := sample_externals) "pw1"
      (pwd_context.Bcrypt "s0" (sample_kdf "s0" "pw2")) = Return false
  ∧ verify_password (H := sample_externals) nul_password
      (pwd_context.Bcrypt "s0" (sample_kdf "s0" "pw2")) = Raise PasswordValueError.
Proof.
  destruct (hash_verify_contract (H := sample_externals))
    as (Hsame & Hother & _ & _ & Hrefused).
  split; [|split].
  - apply Hsame. reflexivity.
  - destruct (Hother "s0" "pw1" "pw2"
                (pwd_context.Bcrypt "s0" (sample_kdf "s0" "pw2")))
      as (_ & Hfalse & _); [reflexivity | reflexivity |].
    apply Hfalse. vm_compute. discriminate.
  - apply (Hrefused "s0"). reflexivity.
Defined.

(** C9 as stated fails in each of its parts: verification raises on a
    stored string that is no digest; two distinct plaintexts that agree
    on their first 72 bytes verify against each other's hash; and a
    plaintext with a NUL byte has no hash to verify against. *)
Lemma hash_verify_contract_fails :
  ¬ (∀ (E : Externals) p raw,
        verify_password p (pwd_context.Unidentified raw) = Return false)
  ∧ ¬ (∀ (E : Externals) salt p q d, p ≠ q →
        get_password_hash salt q = Return d →
        verify_password p d = Return false)
  ∧ ¬ (∀ (E : Externals) salt p,
        ∃ d, get_password_hash salt p = Return d
             ∧ verify_password p d = Return true).
Proof.
  split; [|split].
  - intros Hclaim. specialize (Hclaim sample_externals "pw1" "plain-text").
    discriminate.
  - intros Hclaim.
    assert (long_old ≠ long_new) as Hne by (vm_compute; discriminate).
    specialize (Hclaim sample_externals "s0" long_old long_new _ Hne eq_refl).
    vm_compute in Hclaim. discriminate.
  - intros Hclaim.
    destruct (Hclaim sample_externals "s0" nul_password) as (d & Hd & _).
    vm_compute in Hd. discriminate.
Qed.

(** ** Login *)

Section Login.
Context `{Externals}.



Lemma login_accepted w ident pw now u :
  get_user_by_email_or_username (users w) ident = Some u →
  verify_password pw (password u) = Return true →
  login w ident pw now
  = Return (Bearer (create_access_token {[ "sub" := JStr (email u) ]}
                      ACCESS_TOKEN_EXPIRE_MINUTES now) "bearer").
Proof. intros Hu Hv. unfold login. rewrite Hu, Hv. reflexivity. Qed.


End Login.


(** ** Registration *)

Section Registration.
Context `{Externals}.


Lemma insert_user_duplicate rows u pw e a loc ph lang :
  from_option fits_integer true a = true →
  (∃ r, r ∈ rows ∧ email r = e) →
  insert_user rows u pw e a loc ph lang = Raise IntegrityError.
Proof.
  intros Ha Hdup. unfold insert_user. rewrite Ha. simpl.
  rewrite bool_decide_eq_true_2; [done|]. by apply Exists_exists.
Qed.

Lemma insert_user_fresh rows u pw e a loc ph lang :
  from_option fits_integer true a = true →
  (∀ r, r ∈ rows → email r ≠ e) →
  insert_user rows u pw e a loc ph lang
  = Return (rows ++ [ {| id := next_id rows; username := Some u;
                         password := pw; email := e; age := a;
                         location := loc; phone := ph; language := lang |} ]).
Proof.
  intros Ha Hfresh. unfold insert_user. rewrite Ha. simpl.
  rewrite bool_decide_eq_false_2; [done|].
  rewrite Exists_exists. intros (r & Hr & He). by apply (Hfresh r).
Qed.



Lemma register_duplicate w user salt :
  pwd_context.refused (RegisterUser.password user) = false →
  from_option fits_integer true (RegisterUser.age user) = true →
  (∃ r, r ∈ users w ∧ email r = RegisterUser.email user) →
  register w user salt = (Raise (HTTPException 400 "Email already registered"), w).
Proof.
  intros Hp Ha Hdup. unfold register. rewrite hash_accepted by done. simpl.
  by rewrite insert_user_duplicate.
Qed.

Lemma register_fresh w user salt :
  pwd_context.refused (RegisterUser.password user) = false →
  from_option fits_integer true (RegisterUser.age user) = true →
  (∀ r, r ∈ users w → email r ≠ RegisterUser.email user) →
  register w user salt
  = (Return (Message "User registered successfully"),
     with_users w
       (users w ++
        [ {| id := next_id (users w);
             username := Some (RegisterUser.username user);
             password := pwd_context.Bcrypt salt
                           (pwd_context.checksum_of salt (RegisterUser.password user));
             email := RegisterUser.email user;
             age := RegisterUser.age user;
             location := RegisterUser.location user;
             phone := RegisterUser.phone user;
             language := RegisterUser.language user |} ])).
Proof.
  intros Hp Ha Hfresh. unfold register. rewrite hash_accepted by done. simpl.
  by rewrite insert_user_fresh.
Qed.

(** Whatever the body, the table after a registration is the table
    before it, or that table followed by the row of the body. *)
Lemma register_table w user salt :
  users (register w user salt).2 = users w
  ∨ ∃ hashed,
      users (register w user salt).2
      = users w ++
        [ {| id := next_id (users w);
             username := Some (RegisterUser.username user);
             password := hashed;
             email := RegisterUser.email user;
             age := RegisterUser.age user;
             location := RegisterUser.location user;
             phone := RegisterUser.phone user;
             language := RegisterUser.language user |} ].
Proof.
  unfold register, get_password_hash, pwd_context.hash, insert_user.
  destruct (pwd_context.refused _); [by left|]. simpl.
  destruct (from_option fits_integer true _); [|by left]. simpl.
  destruct (bool_decide _); [by left | right; by eexists].
Qed.

(** C5 (as amended): for a body whose password the hasher accepts and
    whose age, if given, fits 64 bits, registering an email that a
    stored row already has fails with 400, "Email already registered",
    and leaves the whole state, hence every field of the existing row,
    as it was; registering an email that no stored row has succeeds,
    the table afterwards is the existing rows followed by the new row,
    with the next key, the submitted fields and the hash of the
    submitted password, and the outbox and the console are as before. *)
Theorem register_duplicate_or_fresh (w : world) (user : RegisterUser.t) (salt : string) :
  pwd_context.refused (RegisterUser.password user) = false →
  from_option fits_integer true (RegisterUser.age user) = true →
  ((∃ r, r ∈ users w ∧ email r = RegisterUser.email user) →
     register w user salt
     = (Raise (HTTPException 400 "Email already registered"), w))
  ∧ ((∀ r, r ∈ users w → email r ≠ RegisterUser.email user) →
     (register w user salt).1 = Return (Message "User registered successfully")
     ∧ users (register w user salt).2
       = users w ++
         [ {| id := next_id (users w);
              username := Some (RegisterUser.username user);
              password := pwd_context.Bcrypt salt
                            (bcrypt salt (String.substring 0 72
                                            (RegisterUser.password user)));
              email := RegisterUser.email user;
              age := RegisterUser.age user;
              location := RegisterUser.location user;
              phone := RegisterUser.phone user;
              language := RegisterUser.language user |} ]
     ∧ outbox (register w user salt).2 = outbox w
     ∧ console (register w user salt).2 = console w).
Proof.
  intros Hp Ha. split; intros Hemail.
  - by apply register_duplicate.
  - by rewrite register_fresh.
Qed.

End Registration.

Lemma register_duplicate_or_fresh_witness :
  register (H := sample_externals) sample_world alice_again "s1"
  = (Raise (HTTPException 400 "Email already registered"), sample_world)
  ∧ (register (H := sample_externals) sample_world bob_form "s1").1
    = Return (Message "User registered successfully")
  ∧ users (register (H := sample_externals) sample_world bob_form "s1").2
    = [ alice;
        {| id := 2; username := Some "bob";
           password := pwd_context.Bcrypt "s1" (sample_kdf "s1" "pw2");
           email := "b@x.com"; age := None; location := Some "NYC";
           phone := None; language := None |} ].
Proof.
  split; [|split].
  - destruct (register_duplicate_or_fresh (H := sample_externals)
                sample_world alice_again "s1" eq_refl eq_refl) as [Hdup _].
    apply Hdup. exists alice. split; [by constructor | reflexivity].
  - destruct (register_duplicate_or_fresh (H := sample_externals)
                sample_world bob_form "s1" eq_refl eq_refl) as [_ Hfresh].
    apply Hfresh.
    intros r Hr. apply list_elem_of_singleton in Hr as ->. discriminate.
  - destruct (register_duplicate_or_fresh (H := sample_externals)
                sample_world bob_form "s1" eq_refl eq_refl) as [_ Hfresh].
    destruct Hfresh as (_ & Hrows & _).
    + intros r Hr. apply list_elem_of_singleton in Hr as ->. discriminate.
    + exact Hrows.
Defined.

(** C5 as stated fails in both halves: a duplicate email submitted with
    an age that does not fit 64 bits is not answered with 400 but with
    the driver's OverflowError, and a fresh email submitted with a
    password that has a NUL byte is not registered: the hasher's
    PasswordValueError passes through and the table is as before. *)
Lemma register_duplicate_not_400 :
  ((∃ r, r ∈ users sample_world ∧ email r = RegisterUser.email alice_overflow)
   ∧ (register (H := sample_externals) sample_world alice_overflow "s1").1
     = Raise OverflowError)
  ∧ ((∀ r, r ∈ users sample_world → email r ≠ RegisterUser.email eve_form)
     ∧ register (H := sample_externals) sample_world eve_form "s1"
       = (Raise PasswordValueError, sample_world)).
Proof.
  split; split.
  - exists alice. split; [by constructor | reflexivity].
  - vm_compute. reflexivity.
  - intros r Hr. apply list_elem_of_singleton in Hr as ->. discriminate.
  - vm_compute. reflexivity.
Qed.

(** ** Profile update *)

Section ProfileUpdate.
Context `{Externals}.

Lemma patch_empty payload r : empty_update payload → patch payload r = r.
Proof.
  destruct payload as [u a l p g], r. intros (Hu & Ha & Hl & Hp & Hg).
  simpl in *. by subst.
Qed.

Lemma collect_empty payload :
  (collect payload).1 = [] ↔ empty_update payload.
Proof.
  destruct payload as [[u|] [a|] [l|] [p|] [g|]];
    unfold empty_update; vm_compute; split;
    first [ discriminate | tauto | intros (?&?&?&?&?); discriminate ].
Qed.

(** The SET clause assembled by the loop is the patch. *)
Lemma set_clause_is_patch payload r :
  foldl (λ r' fv, set_column fv.1 fv.2 r') r
    (zip (collect payload).1 (collect payload).2)
  = patch payload r.
Proof.
  destruct payload as [[u|] [a|] [l|] [p|] [g|]], r; reflexivity.
Qed.

Lemma values_bindable payload :
  forallb bindable (collect payload).2
  = from_option fits_integer true (UpdateProfile.age payload).
Proof.
  destruct payload as [[u|] [a|] [l|] [p|] [g|]];
    cbn -[fits_integer]; by rewrite ?andb_true_r.
Qed.

Lemma update_profile_overflow w payload cu :
  from_option fits_integer true (UpdateProfile.age payload) = false →
  update_profile w payload cu = (Raise OverflowError, w).
Proof.
  intros Ha. unfold update_profile.
  pose proof (values_bindable payload) as Hb. rewrite Ha in Hb.
  destruct (collect payload) as [[|f fs] vs] eqn:Hc.
  - assert (empty_update payload) as (_ & Hage & _).
    { apply collect_empty. by rewrite Hc. }
    by rewrite Hage in Ha.
  - unfold update_columns. simpl in Hb. by rewrite Hb.
Qed.

Lemma update_profile_response w payload cu :
  from_option fits_integer true (UpdateProfile.age payload) = true →
  (update_profile w payload cu).1
  = Return (Message (if bool_decide ((collect payload).1 = [])
                     then "Nothing to update"
                     else "Profile updated successfully")).
Proof.
  intros Ha. unfold update_profile, update_columns.
  pose proof (values_bindable payload) as Hb. rewrite Ha in Hb.
  destruct (collect payload) as [[|f fs] vs]; [done|].
  simpl in Hb. by rewrite Hb.
Qed.

Lemma update_profile_state w payload cu :
  from_option fits_integer true (UpdateProfile.age payload) = true →
  (update_profile w payload cu).2
  = with_users w (map (λ r, if bool_decide (email r = email cu)
                            then patch payload r else r) (users w)).
Proof.
  intros Ha. unfold update_profile.
  pose proof (values_bindable payload) as Hb. rewrite Ha in Hb.
  destruct (collect payload) as [fields values] eqn:Hc.
  destruct fields as [|f fs].
  - assert (empty_update payload) as Hempty.
    { apply collect_empty. by rewrite Hc. }
    simpl. destruct w as [rows out con]. unfold with_users. simpl. f_equal.
    rewrite <- (map_id rows) at 1. apply map_ext. intros r.
    destruct (bool_decide (email r = email cu)); [|done].
    by rewrite patch_empty.
  - unfold update_columns. simpl in Hb. rewrite Hb. simpl. f_equal.
    apply map_ext. intros r.
    destruct (bool_decide (email r = email cu)); [|done].
    rewrite <- (set_clause_is_patch payload r). by rewrite Hc.
Qed.

(** Whatever the payload, the table after an update is the table before
    it or the patched table. *)
Lemma update_profile_users w payload cu :
  users (update_profile w payload cu).2
  = if from_option fits_integer true (UpdateProfile.age payload)
    then map (λ r, if bool_decide (email r = email cu)
                   then patch payload r else r) (users w)
    else users w.
Proof.
  destruct (from_option fits_integer true (UpdateProfile.age payload)) eqn:Ha.
  - by rewrite update_profile_state.
  - by rewrite update_profile_overflow.
Qed.

Lemma update_profile_channels w payload cu :
  outbox (update_profile w payload cu).2 = outbox w
  ∧ console (update_profile w payload cu).2 = console w.
Proof.
  destruct (from_option fits_integer true (UpdateProfile.age payload)) eqn:Ha.
  - by rewrite update_profile_state.
  - by rewrite update_profile_overflow.
Qed.

Lemma update_profile_empty w payload cu :
  empty_update payload →
  update_profile w payload cu = (Return (Message "Nothing to update"), w).
Proof.
  intros Hempty. apply collect_empty in Hempty.
  unfold update_profile. destruct (collect payload) as [fields values].
  simpl in Hempty. by subst.
Qed.

Lemma serve_put_profile w ev token payload cu :
  get_current_user (users w) token (now ev) = Return cu →
  serve w ev (PUT_profile token payload) = update_profile w payload cu.
Proof. intros Hcu. simpl. by rewrite Hcu. Qed.

(** C6 (as amended): an authenticated profile update whose age, if
    supplied, fits 64 bits answers with a success message; in every row
    of the user's email each supplied field holds the supplied value and
    each field left null, as well as [id], [email] and [password], holds
    its prior value; every other row, the outbox and the console are as
    before; and with no field supplied the state is unchanged and the
    answer is still a success. *)
Theorem update_profile_frame (w : world) (ev : env) (token : jwt.token)
    (payload : UpdateProfile.t) (cu : user) :
  get_current_user (users w) token (now ev) = Return cu →
  from_option fits_integer true (UpdateProfile.age payload) = true →
  let after := serve w ev (PUT_profile token payload) in
  (∃ message, after.1 = Return (Message message))
  ∧ (∀ (i : nat) r, users w !! i = Some r → email r = email cu →
       ∃ r', users after.2 !! i = Some r'
             ∧ id r' = id r ∧ email r' = email r ∧ password r' = password r
             ∧ username r' = supplied (UpdateProfile.username payload) (username r)
             ∧ age r' = supplied (UpdateProfile.age payload) (age r)
             ∧ location r' = supplied (UpdateProfile.location payload) (location r)
             ∧ phone r' = supplied (UpdateProfile.phone payload) (phone r)
             ∧ language r' = supplied (UpdateProfile.language payload) (language r))
  ∧ (∀ (i : nat) r, users w !! i = Some r → email r ≠ email cu →
       users after.2 !! i = Some r)
  ∧ length (users after.2) = length (users w)
  ∧ outbox after.2 = outbox w ∧ console after.2 = console w
  ∧ (empty_update payload →
       after = (Return (Message "Nothing to update"), w)).
Proof.
  intros Hcu Ha after. subst after. rewrite (serve_put_profile _ _ _ _ _ Hcu).
  split; [rewrite update_profile_response by done; by eexists|].
  rewrite update_profile_state by done. simpl.
  split; [|split; [|split; [|split; [|split]]]].
  - intros i r Hi He. exists (patch payload r). split; [|done].
    rewrite list_lookup_fmap, Hi. simpl.
    by rewrite bool_decide_eq_true_2.
  - intros i r Hi He. rewrite list_lookup_fmap, Hi. simpl.
    by rewrite bool_decide_eq_false_2.
  - by rewrite length_map.
  - done.
  - done.
  - apply update_profile_empty.
Qed.

End ProfileUpdate.

Lemma update_profile_frame_witness :
  users (serve (H := sample_externals) sample_world sample_env
           (PUT_profile alice_token age_31)).2
  = [ {| id := 1; username := Some "alice";
         password := pwd_context.Bcrypt "s0" (sample_kdf "s0" "pw1");
         email := "a@x.com"; age := Some 31; location := None;
         phone := None; language := None |} ].
Proof.
  assert (get_current_user (H := sample_externals) (users sample_world)
            alice_token (now sample_env) = Return alice) as Hcu
    by (vm_compute; reflexivity).
  destruct (update_profile_frame (H := sample_externals) sample_world
              sample_env alice_token age_31 alice Hcu eq_refl)
    as (_ & Hrow & _ & Hlen & _).
  destruct (Hrow 0%nat alice eq_refl eq_refl)
    as (r' & Hr' & Hid & Hemail & Hpw & Hu & Ha & Hl & Hp & Hg).
  destruct (users (serve (H := sample_externals) sample_world sample_env
                     (PUT_profile alice_token age_31)).2) as [|r0 [|r1 rest]];
    [discriminate | | discriminate].
  injection Hr' as ->. destruct r'. simpl in *. by subst.
Defined.

(** C6 as stated fails: an authenticated update that supplies a
    location together with an age outside 64 bits is not answered with a
    success message, and the supplied location is not stored. *)
Lemma update_profile_age_overflow :
  get_current_user (H := sample_externals) (users sample_world)
    alice_token (now sample_env) = Return alice
  ∧ UpdateProfile.location age_overflow = Some "NYC"
  ∧ (serve (H := sample_externals) sample_world sample_env
       (PUT_profile alice_token age_overflow)).1 = Raise OverflowError
  ∧ location <$> users (serve (H := sample_externals) sample_world sample_env
                          (PUT_profile alice_token age_overflow)).2
    = [None].
Proof. vm_compute. by repeat split. Qed.

(** ** No profile attribute is ever set back to null *)

Section Persistence.
Context `{Externals}.

Lemma never_nulled_refl r : never_nulled r r.
Proof. by repeat split. Qed.

Lemma never_nulled_trans r1 r2 r3 :
  never_nulled r1 r2 → never_nulled r2 r3 → never_nulled r1 r3.
Proof.
  intros (Hi & Hu & Ha & Hl & Hp & Hg) (Hi' & Hu' & Ha' & Hl' & Hp' & Hg').
  repeat split; [congruence | auto..].
Qed.

Lemma same_profile_refl r : same_profile r r.
Proof. by repeat split. Qed.

Lemma same_profile_never_nulled r r' :
  id r' = id r → same_profile r r' → never_nulled r r'.
Proof.
  intros Hid (Hu & Ha & Hl & Hp & Hg).
  repeat split; [done | by rewrite ?Hu, ?Ha, ?Hl, ?Hp, ?Hg..].
Qed.

Lemma supplied_is_Some {A} (new old : option A) :
  is_Some old → is_Some (supplied new old).
Proof. destruct new; [by eexists | done]. Qed.

Lemma patch_never_nulled payload r : never_nulled r (patch payload r).
Proof. repeat split; simpl; apply supplied_is_Some. Qed.

Lemma patch_null_fields_kept payload r : null_fields_kept payload r (patch payload r).
Proof. repeat split; simpl; by intros ->. Qed.

Lemma null_fields_kept_refl payload r : null_fields_kept payload r r.
Proof. by repeat split. Qed.

Lemma register_users w user salt :
  users (register w user salt).2 = users w
  ∨ ∃ row, users (register w user salt).2 = users w ++ [row].
Proof.
  unfold register, get_password_hash, pwd_context.hash, insert_user.
  destruct (pwd_context.refused _); [by left|]. simpl.
  destruct (from_option fits_integer true _); [|by left]. simpl.
  destruct (bool_decide _); [by left | right; by eexists].
Qed.

Lemma forgot_password_users w ident now smtp :
  users (forgot_password w ident now smtp).2 = users w.
Proof.
  unfold forgot_password.
  destruct (get_user_by_email_or_username (users w) ident); [|done].
  unfold send_reset_email. by destruct smtp.
Qed.

Lemma reset_password_users w payload salt now :
  users (reset_password w payload salt now).2 = users w
  ∨ ∃ hashed e, users (reset_password w payload salt now).2
                = update_password (users w) hashed e.
Proof.
  unfold reset_password.
  destruct (jwt.decode _ _ _ _) as [data|e]; simpl.
  - destruct (data !! "sub") as [[e|n]|]; [|by left..].
    destruct (bool_decide (e = "")); [by left|].
    destruct (get_password_hash _ _); [|by left].
    right. by eexists _, _.
  - left. by destruct e.
Qed.

Lemma update_password_lookup rows hashed e (i : nat) r :
  rows !! i = Some r →
  ∃ r', update_password rows hashed e !! i = Some r'
        ∧ id r' = id r ∧ same_profile r r'.
Proof.
  intros Hi. unfold update_password. rewrite list_lookup_fmap, Hi. simpl.
  destruct (bool_decide (email r = e)); eexists; (split; [done|]);
    split; try done; apply same_profile_refl.
Qed.

(** One request: the row is still there, nothing set is nulled, and
    only a profile update touches the attributes, leaving alone those
    its body has null. *)
Lemma serve_keeps_attributes w ev req (i : nat) r :
  users w !! i = Some r →
  ∃ r', users (serve w ev req).2 !! i = Some r'
        ∧ never_nulled r r'
        ∧ match req with
          | PUT_profile _ payload => null_fields_kept payload r r'
          | _ => same_profile r r'
          end.
Proof.
  intros Hi. destruct req as [user|u p|token|token payload|e|payload]; simpl.
  - exists r. split; [|split; [apply never_nulled_refl | apply same_profile_refl]].
    destruct (register_users w user (salt ev)) as [->|[row ->]]; [done|].
    by apply lookup_app_l_Some.
  - exists r. split; [|split; [apply never_nulled_refl | apply same_profile_refl]].
    by destruct (bool_decide (u = "") || bool_decide (p = "")).
  - exists r. by split; [|split; [apply never_nulled_refl | apply same_profile_refl]].
  - destruct (get_current_user (users w) token (now ev)) as [cu|err]; simpl.
    + rewrite update_profile_users.
      destruct (from_option fits_integer true (UpdateProfile.age payload)).
      * rewrite list_lookup_fmap, Hi. simpl.
        destruct (bool_decide (email r = email cu)); eexists; (split; [done|]).
        -- split; [apply patch_never_nulled | apply patch_null_fields_kept].
        -- split; [apply never_nulled_refl | apply null_fields_kept_refl].
      * exists r. by split; [|split; [apply never_nulled_refl | apply null_fields_kept_refl]].
    + exists r. by split; [|split; [apply never_nulled_refl | apply null_fields_kept_refl]].
  - exists r. rewrite forgot_password_users.
    by split; [|split; [apply never_nulled_refl | apply same_profile_refl]].
  - destruct (reset_password_users w payload (salt ev) (now ev))
      as [->|(hashed & e & ->)].
    + exists r. by split; [|split; [apply never_nulled_refl | apply same_profile_refl]].
    + destruct (update_password_lookup (users w) hashed e i r Hi)
        as (r' & Hr' & Hid & Hsame).
      exists r'. split; [done|]. split; [|done].
      by apply same_profile_never_nulled.
Qed.

Lemma run_keeps_attributes trace : ∀ w (i : nat) r,
  users w !! i = Some r →
  ∃ r', users (run w trace) !! i = Some r' ∧ never_nulled r r'.
Proof.
  induction trace as [|[ev req] rest IH]; intros w i r Hi; simpl.
  - exists r. split; [done | apply never_nulled_refl].
  - destruct (serve_keeps_attributes w ev req i r Hi) as (r1 & H1 & Hn1 & _).
    destruct (IH _ i r1 H1) as (r2 & H2 & Hn2).
    exists r2. split; [done|]. by eapply never_nulled_trans.
Qed.

(** C10: whatever request is served, a stored row stays in place, keeps
    its [id] and keeps every profile attribute it had set non-null; a
    profile update leaves every field that its body has null at the
    stored value, and no other request changes a profile attribute;
    hence after any sequence of requests no attribute that was set is
    null. *)
Theorem profile_attributes_never_nulled (w : world) (i : nat) (r : user) :
  users w !! i = Some r →
  (∀ ev req, ∃ r', users (serve w ev req).2 !! i = Some r'
                   ∧ never_nulled r r'
                   ∧ match req with
                     | PUT_profile _ payload => null_fields_kept payload r r'
                     | _ => same_profile r r'
                     end)
  ∧ (∀ trace, ∃ r', users (run w trace) !! i = Some r' ∧ never_nulled r r').
Proof.
  intros Hi. split.
  - intros ev req. by apply serve_keeps_attributes.
  - intros trace. by apply run_keeps_attributes.
Qed.

End Persistence.

Lemma profile_attributes_never_nulled_witness :
  ∃ r', users (run (H := sample_externals) sample_world sample_trace) !! 0%nat = Some r'
        ∧ never_nulled alice r'.
Proof.
  assert (users sample_world !! 0%nat = Some alice) as Hrow by reflexivity.
  destruct (profile_attributes_never_nulled (H := sample_externals)
              sample_world 0%nat alice Hrow) as [_ Htrace].
  exact (Htrace sample_trace).
Defined.

(** ** Forgotten passwords *)

Section ForgotPassword.
Context `{Externals}.

Lemma lookup_none_iff rows ident :
  get_user_by_email_or_username rows ident = None
  ↔ ∀ r, r ∈ rows → email r ≠ ident ∧ username r ≠ Some ident.
Proof.
  unfold get_user_by_email_or_username.
  induction rows as [|r0 rows IH]; simpl.
  - split; [|done]. intros _ r Hr. by apply not_elem_of_nil in Hr.
  - destruct (bool_decide (email r0 = ident)) eqn:He;
      [|destruct (bool_decide (username r0 = Some ident)) eqn:Hu]; simpl.
    + apply bool_decide_eq_true in He. split; [done|].
      intros Hall. destruct (Hall r0) as [Hne _]; [by left | done].
    + apply bool_decide_eq_true in Hu. split; [done|].
      intros Hall. destruct (Hall r0) as [_ Hne]; [by left | done].
    + apply bool_decide_eq_false in He, Hu. rewrite IH. split.
      * intros Hall r Hr. apply elem_of_cons in Hr as [->|Hr]; [done | by apply Hall].
      * intros Hall r Hr. apply Hall. by right.
Qed.

Lemma lookup_some rows ident u :
  get_user_by_email_or_username rows ident = Some u →
  u ∈ rows ∧ (email u = ident ∨ username u = Some ident).
Proof.
  unfold get_user_by_email_or_username. intros Hfind.
  apply find_some in Hfind as [Hin Hp]. split; [by apply list_elem_of_In|].
  apply orb_true_iff in Hp as [Hp|Hp]; apply bool_decide_eq_true in Hp; auto.
Qed.

Lemma forgot_password_found w ident now smtp u :
  get_user_by_email_or_username (users w) ident = Some u →
  forgot_password w ident now smtp
  = (Return (Message "Password reset email sent"),
     send_reset_email smtp (email u)
       (create_access_token {[ "sub" := JStr (email u) ]}
          RESET_TOKEN_EXPIRE_MINUTES now) w).
Proof. intros Hu. unfold forgot_password. by rewrite Hu. Qed.

(** C4 (as amended): the answer is 404, "Email not found", exactly when
    no stored row has the given string as its email or as its username.
    When a row with that email exists, and every row that carries the
    string as its username has it as its email too, a token with that
    email as subject, expiring fifteen minutes later, is issued, the
    table is unchanged, the mail carrying the token is handed over to
    that email exactly when the SMTP dialogue succeeds, and the caller
    is answered with success either way. *)
Theorem forgot_password_outcome (w : world) (ident : string) (now : Z) (smtp : bool) :
  let after := forgot_password w ident now smtp in
  (after.1 = Raise (HTTPException 404 "Email not found")
     ↔ ∀ r, r ∈ users w → email r ≠ ident ∧ username r ≠ Some ident)
  ∧ ((∃ r, r ∈ users w ∧ email r = ident) →
     (∀ r, r ∈ users w → username r = Some ident → email r = ident) →
       let reset_token := create_access_token {[ "sub" := JStr ident ]}
                            RESET_TOKEN_EXPIRE_MINUTES now in
       after.1 = Return (Message "Password reset email sent")
       ∧ users after.2 = users w
       ∧ (∃ payload signature,
            reset_token = jwt.Signed ALGORITHM payload signature
            ∧ payload !! "sub" = Some (JStr ident)
            ∧ payload !! "exp" = Some (JInt (now + 60 * 15)))
       ∧ outbox after.2
         = if smtp
           then outbox w ++ [ {| mail_to := ident;
                                 mail_subject := "Password Reset Request";
                                 link_base := FRONTEND_URL;
                                 link_token := reset_token |} ]
           else outbox w).
Proof.
  intros after. subst after. split.
  - rewrite <- lookup_none_iff. split.
    + intros H404.
      destruct (get_user_by_email_or_username (users w) ident) as [u|] eqn:Hu;
        [|done].
      rewrite (forgot_password_found _ _ _ _ _ Hu) in H404. discriminate.
    + intros Hnone. unfold forgot_password. by rewrite Hnone.
  - intros (r & Hr & He) Hown reset_token. subst reset_token.
    destruct (get_user_by_email_or_username (users w) ident) as [u|] eqn:Hu.
    + assert (email u = ident) as Heu.
      { destruct (lookup_some _ _ _ Hu) as [Hin [Hmail|Hname]]; [done|].
        by apply Hown. }
      rewrite (forgot_password_found _ _ _ _ _ Hu), Heu. simpl.
      split; [done|]. split; [by destruct smtp|].
      split; [|by destruct smtp].
      eexists _, _. rewrite issued_shape. split; [reflexivity|].
      split; [apply issued_payload_sub | apply issued_payload_exp].
    + destruct (proj1 (lookup_none_iff _ _) Hu r Hr) as [Hne _]. done.
Qed.

End ForgotPassword.

Lemma forgot_password_outcome_witness :
  (forgot_password (H := sample_externals) sample_world "nobody@x.com" 1000 true).1
  = Raise (HTTPException 404 "Email not found")
  ∧ (forgot_password (H := sample_externals) sample_world "a@x.com" 1000 false).1
    = Return (Message "Password reset email sent")
  ∧ mail_to <$> outbox (forgot_password (H := sample_externals) sample_world
                          "a@x.com" 1000 true).2
    = ["a@x.com"].
Proof.
  assert (∃ r, r ∈ users sample_world ∧ email r = "a@x.com") as Hrow.
  { exists alice. split; [by constructor | reflexivity]. }
  assert (∀ r, r ∈ users sample_world → username r = Some "a@x.com" →
               email r = "a@x.com") as Hown.
  { intros r Hr. apply list_elem_of_singleton in Hr as ->. discriminate. }
  split; [|split].
  - apply (forgot_password_outcome (H := sample_externals) sample_world
             "nobody@x.com" 1000 true).
    intros r Hr. apply list_elem_of_singleton in Hr as ->.
    split; discriminate.
  - destruct (forgot_password_outcome (H := sample_externals) sample_world
                "a@x.com" 1000 false) as [_ Hfound].
    by destruct (Hfound Hrow Hown) as (Hok & _).
  - destruct (forgot_password_outcome (H := sample_externals) sample_world
                "a@x.com" 1000 true) as [_ Hfound].
    destruct (Hfound Hrow Hown) as (_ & _ & _ & Hout).
    by rewrite Hout.
Defined.

(** C4 as stated fails in both parts.  A string that is the username of
    a stored row, and the email of none, is not answered 404.  And for
    an email that an earlier row carries as its username, the token is
    not issued for that email: its subject and the recipient of the
    mail are the email of the earlier row. *)
Lemma forgot_password_by_username :
  ¬ (∀ (E : Externals) (w : world) (ident : string) (now : Z) (smtp : bool),
        (forgot_password w ident now smtp).1
        = Raise (HTTPException 404 "Email not found")
        ↔ ¬ ∃ r, r ∈ users w ∧ email r = ident)
  ∧ ((∃ r, r ∈ users shadowing_world ∧ email r = "b@x.com")
     ∧ outbox (forgot_password (H := sample_externals) shadowing_world
                 "b@x.com" 1000 true).2
       = [ {| mail_to := "a@x.com";
              mail_subject := "Password Reset Request";
              link_base := FRONTEND_URL;
              link_token := create_access_token (H := sample_externals)
                              {[ "sub" := JStr "a@x.com" ]}
                              RESET_TOKEN_EXPIRE_MINUTES 1000 |} ]).
Proof.
  split; [|split].
  - intros Hclaim.
    destruct (Hclaim sample_externals sample_world "alice" 1000 true) as [_ H404].
    assert ((forgot_password (H := sample_externals) sample_world "alice" 1000 true).1
            = Raise (HTTPException 404 "Email not found")) as Habs.
    { apply H404. intros (r & Hr & He).
      apply list_elem_of_singleton in Hr as ->. discriminate. }
    discriminate.
  - eexists. split; [apply list_elem_of_further, list_elem_of_here | reflexivity].
  - vm_compute. reflexivity.
Qed.

(** ** Password reset *)

Section PasswordReset.
Context `{Externals}.

(** A token issued for a non-empty subject passes the checks of
    [reset_password] for as long as it has not expired; what remains is
    the hashing of the new password. *)
Lemma reset_password_issued w s minutes t0 new salt now :
  s ≠ "" → now ≤ t0 + 60 * minutes →
  reset_password w
    {| ResetPasswordRequest.token :=
         create_access_token {[ "sub" := JStr s ]} minutes t0;
       ResetPasswordRequest.new_password := new |} salt now
  = match get_password_hash salt new with
    | Return hashed_pw =>
        (Return (Message "Password reset successful"),
         with_users w (update_password (users w) hashed_pw s))
    | Raise err => (Raise err, w)
    end.
Proof.
  intros Hs Hnow. unfold reset_password.
  cbn [ResetPasswordRequest.token ResetPasswordRequest.new_password].
  rewrite decode_issued.
  assert ((t0 + 60 * minutes <? now) = false) as -> by (apply Z.ltb_ge; lia).
  simpl. rewrite issued_payload_sub.
  by rewrite bool_decide_eq_false_2.
Qed.

Lemma reset_password_issued_accepted w s minutes t0 new salt now :
  s ≠ "" → now ≤ t0 + 60 * minutes →
  pwd_context.refused new = false →
  reset_password w
    {| ResetPasswordRequest.token :=
         create_access_token {[ "sub" := JStr s ]} minutes t0;
       ResetPasswordRequest.new_password := new |} salt now
  = (Return (Message "Password reset successful"),
     with_users w
       (update_password (users w)
          (pwd_context.Bcrypt salt (pwd_context.checksum_of salt new)) s)).
Proof.
  intros Hs Hnow Hnew. rewrite reset_password_issued by done.
  by rewrite hash_accepted.
Qed.

Lemma reset_password_issued_refused w s minutes t0 new salt now :
  s ≠ "" → now ≤ t0 + 60 * minutes →
  pwd_context.refused new = true →
  reset_password w
    {| ResetPasswordRequest.token :=
         create_access_token {[ "sub" := JStr s ]} minutes t0;
       ResetPasswordRequest.new_password := new |} salt now
  = (Raise PasswordValueError, w).
Proof.
  intros Hs Hnow Hnew. rewrite reset_password_issued by done.
  by rewrite hash_refused.
Qed.

Lemma find_map {A} (p : A → bool) (f : A → A) (l : list A) :
  (∀ x, p (f x) = p x) → List.find p (map f l) = f <$> List.find p l.
Proof.
  intros Hp. induction l as [|x l IH]; [done|]. simpl.
  rewrite Hp. by destruct (p x).
Qed.





End PasswordReset.



(** ** One token shape for two purposes *)

Section TokenFlavours.
Context `{Externals}.

Lemma select_by_email_found rows ident u :
  get_user_by_email_or_username rows ident = Some u →
  ∃ row, select_by_email rows (email u) = Some row ∧ email row = email u.
Proof.
  intros Hu. apply lookup_some in Hu as [Hin _].
  unfold select_by_email.
  destruct (List.find (λ r, bool_decide (email r = email u)) rows) as [row|] eqn:Hf.
  - exists row. split; [done|].
    apply find_some in Hf as [_ Hp]. by apply bool_decide_eq_true in Hp.
  - apply list_elem_of_In in Hin.
    pose proof (find_none _ _ Hf u Hin) as Hp. simpl in Hp.
    by rewrite bool_decide_eq_true_2 in Hp.
Qed.

Lemma issued_payloads_agree s m1 m2 t0 (k : string) :
  k ≠ "exp" → issued_payload s m1 t0 !! k = issued_payload s m2 t0 !! k.
Proof. intros Hk. unfold issued_payload. by rewrite !lookup_insert_ne. Qed.

(** C7 (as amended): let an identifier resolve to a stored user [u]
    with a non-empty email.  The reset token that [forgot_password]
    issues and the access token that [login] issues at the same instant
    have the same header and agree on every claim but [exp], fifteen
    and sixty minutes ahead.  Until its expiry the reset token
    authenticates a request, resolving to the same row as the access
    token; until its expiry the access token passes the checks of
    [reset_password], which answers it as it answers the reset token,
    and for a new password that the hasher accepts the reset succeeds
    and stores the hash of that password in the rows of [email u]. *)
Theorem token_flavours_interchangeable (w : world) (ident : string) (u : user) (t0 : Z) :
  get_user_by_email_or_username (users w) ident = Some u →
  email u ≠ "" →
  let reset_token := create_access_token {[ "sub" := JStr (email u) ]}
                       RESET_TOKEN_EXPIRE_MINUTES t0 in
  let access_token := create_access_token {[ "sub" := JStr (email u) ]}
                        ACCESS_TOKEN_EXPIRE_MINUTES t0 in
  (∀ smtp, forgot_password w ident t0 smtp
           = (Return (Message "Password reset email sent"),
              send_reset_email smtp (email u) reset_token w))
  ∧ (∀ pw, verify_password pw (password u) = Return true →
           login w ident pw t0 = Return (Bearer access_token "bearer"))
  ∧ (∃ payload_r signature_r payload_a signature_a,
       reset_token = jwt.Signed ALGORITHM payload_r signature_r
       ∧ access_token = jwt.Signed ALGORITHM payload_a signature_a
       ∧ payload_r !! "exp" = Some (JInt (t0 + 60 * 15))
       ∧ payload_a !! "exp" = Some (JInt (t0 + 60 * 60))
       ∧ ∀ k : string, k ≠ "exp" → payload_r !! k = payload_a !! k)
  ∧ (∀ now, now ≤ t0 + 60 * 15 →
       ∃ row, get_current_user (users w) reset_token now = Return row
              ∧ email row = email u
              ∧ get_current_user (users w) access_token now = Return row)
  ∧ (∀ now new salt, now ≤ t0 + 60 * 60 →
       (pwd_context.refused new = false →
          let after := reset_password w
                         {| ResetPasswordRequest.token := access_token;
                            ResetPasswordRequest.new_password := new |} salt now in
          after.1 = Return (Message "Password reset successful")
          ∧ users after.2
            = update_password (users w)
                (pwd_context.Bcrypt salt (bcrypt salt (String.substring 0 72 new)))
                (email u)
          ∧ outbox after.2 = outbox w ∧ console after.2 = console w)
       ∧ (now ≤ t0 + 60 * 15 →
          reset_password w
            {| ResetPasswordRequest.token := reset_token;
               ResetPasswordRequest.new_password := new |} salt now
          = reset_password w
              {| ResetPasswordRequest.token := access_token;
                 ResetPasswordRequest.new_password := new |} salt now)).
Proof.
  intros Hu Hemail reset_token access_token. subst reset_token access_token.
  split; [|split; [|split; [|split]]].
  - intros smtp. by apply forgot_password_found.
  - intros pw Hpw. by apply login_accepted.
  - eexists _, _, _, _. rewrite !issued_shape.
    split; [reflexivity|]. split; [reflexivity|].
    split; [apply issued_payload_exp|]. split; [apply issued_payload_exp|].
    intros k Hk. by apply issued_payloads_agree.
  - intros now Hnow.
    destruct (select_by_email_found _ _ _ Hu) as (row & Hrow & Herow).
    exists row. rewrite !current_user_issued.
    assert ((t0 + 60 * RESET_TOKEN_EXPIRE_MINUTES <? now) = false) as ->
      by (apply Z.ltb_ge; unfold RESET_TOKEN_EXPIRE_MINUTES; lia).
    assert ((t0 + 60 * ACCESS_TOKEN_EXPIRE_MINUTES <? now) = false) as ->
      by (apply Z.ltb_ge; unfold ACCESS_TOKEN_EXPIRE_MINUTES; lia).
    rewrite bool_decide_eq_false_2 by done. by rewrite Hrow.
  - intros now new salt Hnow. split.
    + intros Hnew. by rewrite reset_password_issued_accepted.
    + intros Hnow'. by rewrite !reset_password_issued.
Qed.

End TokenFlavours.

Lemma token_flavours_interchangeable_witness :
  get_current_user (H := sample_externals) (users sample_world)
    (create_access_token (H := sample_externals)
       {[ "sub" := JStr "a@x.com" ]} RESET_TOKEN_EXPIRE_MINUTES 1000) 1900
  = Return alice
  ∧ (reset_password (H := sample_externals) sample_world
       {| ResetPasswordRequest.token := alice_token;
          ResetPasswordRequest.new_password := "pw9" |} "s1" 4600).1
    = Return (Message "Password reset successful")
  ∧ password <$> users (reset_password (H := sample_externals) sample_world
                          {| ResetPasswordRequest.token := alice_token;
                             ResetPasswordRequest.new_password := "pw9" |}
                          "s1" 4600).2
    = [pwd_context.Bcrypt "s1" (sample_kdf "s1" "pw9")].
Proof.
  assert (get_user_by_email_or_username (users sample_world) "alice" = Some alice)
    as Hu by reflexivity.
  assert (email alice ≠ "") as Hemail by discriminate.
  destruct (token_flavours_interchangeable (H := sample_externals) sample_world
              "alice" alice 1000 Hu Hemail) as (_ & _ & _ & Hauth & Hreset).
  split; [|split].
  - destruct (Hauth 1900) as (row & Hr & _ & Ha); [lia|].
    assert (row = alice) as ->.
    { assert (Return row = Return alice) as Heq
        by (rewrite <- Ha; vm_compute; reflexivity).
      by injection Heq. }
    exact Hr.
  - destruct (Hreset 4600 "pw9" "s1") as [Hacc _]; [lia|].
    destruct (Hacc eq_refl) as (Hok & _). exact Hok.
  - destruct (Hreset 4600 "pw9" "s1") as [Hacc _]; [lia|].
    destruct (Hacc eq_refl) as (_ & Hrows & _).
    exact (f_equal (fmap password) Hrows).
Defined.

(** C7 as stated fails for a stored user whose email is the empty
    string: the reset token issued for that user is refused by the
    authentication dependency before it expires. *)
Lemma reset_token_for_empty_email :
  ¬ (∀ (E : Externals) (w : world) (ident : string) (u : user) (t0 now : Z),
        get_user_by_email_or_username (users w) ident = Some u →
        now ≤ t0 + 60 * RESET_TOKEN_EXPIRE_MINUTES →
        ∃ row, get_current_user (users w)
                 (create_access_token {[ "sub" := JStr (email u) ]}
                    RESET_TOKEN_EXPIRE_MINUTES t0) now
               = Return row).
Proof.
  intros Hclaim.
  destruct (Hclaim sample_externals nameless_world "nobody" nameless 1000 1500)
    as [row Hrow]; [reflexivity | vm_compute; discriminate |].
  vm_compute in Hrow. discriminate.
Qed.

(** * Further properties of the service *)

(** ** What one request does to the table *)

Section TableShape.
Context `{Externals}.

Lemma reset_password_table w payload salt now :
  users (reset_password w payload salt now).2 = users w
  ∨ ∃ hashed e,
      get_password_hash salt (ResetPasswordRequest.new_password payload)
      = Return hashed
      ∧ users (reset_password w payload salt now).2
        = update_password (users w) hashed e.
Proof.
  unfold reset_password.
  destruct (jwt.decode _ _ _ _) as [data|e]; simpl.
  - destruct (data !! "sub") as [[e|n]|]; [|by left..].
    destruct (bool_decide (e = "")); [by left|].
    destruct (get_password_hash _ _) as [hashed|err]; [|by left].
    right. by eexists _, _.
  - left. by destruct e.
Qed.

Lemma hash_is_bcrypt salt pw hashed :
  get_password_hash salt pw = Return hashed → bcrypt_digest hashed.
Proof.
  unfold get_password_hash, pwd_context.hash.
  destruct (pwd_context.refused pw); [done|].
  intros [= <-]. by eexists _, _.
Qed.

(** Every request maps the existing rows in place, keeping their key and
    email and keeping recognisable digests recognisable, and appends at
    most one row, whose email is new, whose key is the next one and whose
    password is a fresh digest. *)
Lemma serve_shape w ev req :
  ∃ (g : user → user) (extra : list user),
    users (serve w ev req).2 = map g (users w) ++ extra
    ∧ (∀ r, id (g r) = id r ∧ email (g r) = email r
            ∧ (bcrypt_digest (password r) → bcrypt_digest (password (g r))))
    ∧ (extra = []
       ∨ ∃ row, extra = [row]
                ∧ (∀ r, r ∈ users w → email r ≠ email row)
                ∧ id row = next_id (users w)
                ∧ bcrypt_digest (password row))
    ∧ ((∀ user, req ≠ POST_register user) → extra = []).
Proof.
  assert (∀ rows : list user, rows = map (λ r, r) rows ++ []) as Hsame.
  { intros rows. by rewrite map_id, app_nil_r. }
  assert (∀ r : user, id r = id r ∧ email r = email r
            ∧ (bcrypt_digest (password r) → bcrypt_digest (password r))) as Hid
    by done.
  destruct req as [user|u p|token|token payload|e|payload]; simpl.
  - unfold register, get_password_hash, pwd_context.hash, insert_user.
    destruct (pwd_context.refused _); simpl;
      [|destruct (from_option fits_integer true _); simpl;
        [destruct (bool_decide (Exists _ (users w))) eqn:Hdup; simpl|]].
    + exists (λ r, r), []. split; [apply Hsame|]. split; [exact Hid|]. by split; [left|].
    + exists (λ r, r), []. split; [apply Hsame|]. split; [exact Hid|]. by split; [left|].
    + eexists (λ r, r), [_]. split; [by rewrite map_id|].
      split; [exact Hid|].
      split; [|intros Hreq; by destruct (Hreq user)].
      right. eexists. split; [reflexivity|].
      apply bool_decide_eq_false in Hdup. simpl.
      split; [|split; [done | by eexists _, _]].
      intros r Hr He. apply Hdup. apply Exists_exists. by exists r.
    + exists (λ r, r), []. split; [apply Hsame|]. split; [exact Hid|]. by split; [left|].
  - exists (λ r, r), [].
    split; [destruct (bool_decide (u = "") || bool_decide (p = "")); apply Hsame|].
    split; [exact Hid|]. by split; [left|].
  - exists (λ r, r), []. split; [apply Hsame|]. split; [exact Hid|]. by split; [left|].
  - destruct (get_current_user (users w) token (now ev)) as [cu|err]; simpl.
    + rewrite update_profile_users.
      destruct (from_option fits_integer true (UpdateProfile.age payload)).
      * eexists _, []. split; [by rewrite app_nil_r|].
        split; [|by split; [left|]].
        intros r. by destruct (bool_decide (email r = email cu)).
      * exists (λ r, r), []. split; [apply Hsame|]. split; [exact Hid|].
        by split; [left|].
    + exists (λ r, r), []. split; [apply Hsame|]. split; [exact Hid|]. by split; [left|].
  - rewrite forgot_password_users.
    exists (λ r, r), []. split; [apply Hsame|]. split; [exact Hid|]. by split; [left|].
  - destruct (reset_password_table w payload (salt ev) (now ev))
      as [->|(hashed & e & Hhash & ->)].
    + exists (λ r, r), []. split; [apply Hsame|]. split; [exact Hid|]. by split; [left|].
    + unfold update_password. eexists _, []. split; [by rewrite app_nil_r|].
      split; [|by split; [left|]].
      intros r. destruct (bool_decide (email r = e)); [|done]. simpl.
      repeat split. intros _. by apply (hash_is_bcrypt _ _ _ Hhash).
Qed.

Lemma map_keeps_emails (g : user → user) rows :
  (∀ r, email (g r) = email r) → email <$> map g rows = email <$> rows.
Proof.
  intros Hg. induction rows as [|r rows IH]; [done|].
  change (email (g r) :: (email <$> map g rows) = email r :: (email <$> rows)).
  by rewrite Hg, IH.
Qed.

Lemma map_keeps_ids (g : user → user) rows :
  (∀ r, id (g r) = id r) → id <$> map g rows = id <$> rows.
Proof.
  intros Hg. induction rows as [|r rows IH]; [done|].
  change (id (g r) :: (id <$> map g rows) = id r :: (id <$> rows)).
  by rewrite Hg, IH.
Qed.

Lemma map_keeps_identities (g : user → user) rows :
  (∀ r, id (g r) = id r ∧ email (g r) = email r) →
  identities (map g rows) = identities rows.
Proof.
  intros Hg. induction rows as [|r rows IH]; [done|].
  change ((id (g r), email (g r)) :: identities (map g rows)
          = (id r, email r) :: identities rows).
  destruct (Hg r) as [-> ->]. by rewrite IH.
Qed.

Lemma next_id_above rows r : r ∈ rows → id r < next_id rows.
Proof.
  unfold next_id. induction rows as [|r0 rows IH]; intros Hr.
  - by apply not_elem_of_nil in Hr.
  - simpl. apply elem_of_cons in Hr as [->|Hr]; [lia|].
    specialize (IH Hr). lia.
Qed.

End TableShape.

(** ** Invariants of the table *)

Section TableInvariants.
Context `{Externals}.

Lemma serve_unique_emails w ev req :
  unique_emails (users w) → unique_emails (users (serve w ev req).2).
Proof.
  unfold unique_emails. intros Hnd.
  destruct (serve_shape w ev req) as (g & extra & -> & Hg & Hextra & _).
  rewrite fmap_app, map_keeps_emails by (intros r; apply Hg).
  destruct Hextra as [->|(row & -> & Hfresh & _)].
  - by rewrite app_nil_r.
  - apply NoDup_app. split; [done|]. split; [|apply NoDup_singleton].
    intros e He Hrow. apply list_elem_of_singleton in Hrow as ->.
    apply list_elem_of_fmap in He as (r & Heq & Hr).
    by apply (Hfresh r Hr).
Qed.

(** X1: the uniqueness of emails is an invariant of the service: from a
    table in which no two rows share an email, no sequence of requests
    reaches a table in which two rows do. *)
Theorem emails_stay_unique (w : world) :
  unique_emails (users w) →
  ∀ trace, unique_emails (users (run w trace)).
Proof.
  intros Hw trace. revert w Hw.
  induction trace as [|[ev req] rest IH]; intros w Hw; simpl; [done|].
  apply IH. by apply serve_unique_emails.
Qed.

Lemma serve_unique_ids w ev req :
  unique_ids (users w) → unique_ids (users (serve w ev req).2).
Proof.
  unfold unique_ids. intros Hnd.
  destruct (serve_shape w ev req) as (g & extra & -> & Hg & Hextra & _).
  rewrite fmap_app, map_keeps_ids by (intros r; apply Hg).
  destruct Hextra as [->|(row & -> & _ & Hkey & _)].
  - by rewrite app_nil_r.
  - apply NoDup_app. split; [done|]. split; [|apply NoDup_singleton].
    intros k Hk Hrow. apply list_elem_of_singleton in Hrow as ->.
    apply list_elem_of_fmap in Hk as (r & Heq & Hr).
    pose proof (next_id_above _ _ Hr) as Hlt. simpl in Heq. lia.
Qed.

Lemma run_unique_ids trace : ∀ w,
  unique_ids (users w) → unique_ids (users (run w trace)).
Proof.
  induction trace as [|[ev req] rest IH]; intros w Hw; simpl; [done|].
  apply IH. by apply serve_unique_ids.
Qed.

(** X2: keys are never reused.  A row that a request adds receives a key
    above the key of every row already present, and from a table with
    pairwise distinct keys every sequence of requests reaches a table
    with pairwise distinct keys. *)
Theorem ids_never_reused (w : world) :
  (∀ ev req (i : nat) r,
     (length (users w) ≤ i)%nat →
     users (serve w ev req).2 !! i = Some r →
     ∀ r0, r0 ∈ users w → id r0 < id r)
  ∧ (unique_ids (users w) → ∀ trace, unique_ids (users (run w trace))).
Proof.
  split.
  - intros ev req i r Hi Hr r0 Hr0.
    destruct (serve_shape w ev req) as (g & extra & Hshape & _ & Hextra & _).
    rewrite Hshape in Hr.
    assert (length (map g (users w)) = length (users w)) as Hlen
      by apply length_map.
    rewrite lookup_app_r in Hr by lia.
    destruct Hextra as [->|(row & -> & _ & Hkey & _)].
    + by rewrite lookup_nil in Hr.
    + apply list_lookup_singleton_Some in Hr as [_ <-].
      rewrite Hkey. by apply next_id_above.
  - intros Hw trace. by apply run_unique_ids.
Qed.

Lemma serve_identities w ev req :
  identities (users w) `prefix_of` identities (users (serve w ev req).2).
Proof.
  destruct (serve_shape w ev req) as (g & extra & -> & Hg & _ & _).
  unfold identities at 2. rewrite fmap_app.
  fold (identities (map g (users w))).
  rewrite map_keeps_identities by (intros r; split; apply Hg).
  by apply prefix_app_r.
Qed.

(** X3: no request deletes or moves a row or changes a key or an email:
    the keys and emails of the table before a sequence of requests are an
    initial segment of those after it. *)
Theorem identities_only_grow (w : world) (trace : list (env * request)) :
  identities (users w) `prefix_of` identities (users (run w trace)).
Proof.
  revert w. induction trace as [|[ev req] rest IH]; intros w; simpl; [done|].
  etrans; [apply serve_identities | apply IH].
Qed.

End TableInvariants.

Lemma emails_stay_unique_witness :
  unique_emails (users (run (H := sample_externals) sample_world sample_trace)).
Proof.
  apply (emails_stay_unique (H := sample_externals) sample_world).
  apply NoDup_singleton.
Defined.

Lemma ids_never_reused_witness :
  unique_ids (users (run (H := sample_externals) sample_world sample_trace))
  ∧ ∀ r0, r0 ∈ users sample_world → id r0 < 2.
Proof.
  destruct (ids_never_reused (H := sample_externals) sample_world)
    as [Hnew Hunique].
  split.
  - apply Hunique. apply NoDup_singleton.
  - intros r0 Hr0.
    exact (Hnew sample_env (POST_register bob_form) 1%nat _
             (le_n 1) eq_refl r0 Hr0).
Defined.

(** ** Responses *)

Section Responses.
Context `{Externals}.

Lemma current_user_outcome rows tok now :
  (∃ row, get_current_user rows tok now = Return row ∧ row ∈ rows)
  ∨ (∃ detail, get_current_user rows tok now = Raise (HTTPException 401 detail)).
Proof.
  unfold get_current_user.
  destruct (jwt.decode tok SECRET_KEY [ALGORITHM] now) as [payload|e] eqn:Hd.
  - simpl. destruct (payload !! "sub") as [[e|n]|]; [|by right; eexists..].
    destruct (bool_decide (e = "")); [by right; eexists|].
    destruct (select_by_email rows e) as [row|] eqn:Hrow; [left | right; by eexists].
    exists row. split; [done|].
    apply find_some in Hrow as [Hin _]. by apply list_elem_of_In.
  - apply decode_raises in Hd as ->. right. by eexists.
Qed.







(** X5: a request that is answered with an error has changed nothing:
    neither the table nor the outbox nor the console. *)
Theorem failed_request_changes_nothing (w : world) (ev : env) (req : request) (e : exn) :
  (serve w ev req).1 = Raise e → (serve w ev req).2 = w.
Proof.
  destruct req as [user|u p|token|token payload|ident|payload]; simpl.
  - unfold register.
    destruct (_ ← get_password_hash _ _; insert_user _ _ _ _ _ _ _ _)
      as [rows|err]; [done|]. by destruct err.
  - by destruct (bool_decide (u = "") || bool_decide (p = "")).
  - done.
  - destruct (get_current_user (users w) token (now ev)) as [cu|err]; [|done].
    destruct (from_option fits_integer true (UpdateProfile.age payload)) eqn:Ha.
    + by rewrite update_profile_response.
    + by rewrite update_profile_overflow.
  - unfold forgot_password.
    by destruct (get_user_by_email_or_username (users w) ident).
  - unfold reset_password.
    destruct (jwt.decode _ _ _ _) as [data|err]; simpl.
    + destruct (data !! "sub") as [[s|n]|]; [|done..].
      destruct (bool_decide (s = "")); [done|].
      by destruct (get_password_hash _ _).
    + by destruct err.
Qed.

End Responses.


Lemma failed_request_changes_nothing_witness :
  (serve (H := sample_externals) sample_world sample_env
     (POST_register alice_again)).2 = sample_world.
Proof.
  apply (failed_request_changes_nothing (H := sample_externals) sample_world
           sample_env (POST_register alice_again)
           (HTTPException 400 "Email already registered")).
  reflexivity.
Defined.

(** ** Round trips through the table *)

Section RoundTrips.
Context `{Externals}.

Lemma find_app_none {A} (p : A → bool) (l k : list A) :
  List.find p l = None → List.find p (l ++ k) = List.find p k.
Proof.
  induction l as [|x l IH]; [done|]. simpl.
  destruct (p x); [done | exact IH].
Qed.

Lemma select_by_email_unique rows u :
  unique_emails rows → u ∈ rows → select_by_email rows (email u) = Some u.
Proof.
  unfold unique_emails, select_by_email.
  induction rows as [|r0 rows IH]; intros Hnd Hu.
  - by apply not_elem_of_nil in Hu.
  - change (email <$> r0 :: rows) with (email r0 :: (email <$> rows)) in Hnd.
    apply NoDup_cons in Hnd as [Hfresh Hnd]. simpl.
    apply elem_of_cons in Hu as [->|Hu].
    + by rewrite bool_decide_eq_true_2.
    + rewrite bool_decide_eq_false_2; [by apply IH|].
      intros He. apply Hfresh. rewrite He. by apply list_elem_of_fmap_2.
Qed.

Lemma serve_login w ev u p :
  u ≠ "" → p ≠ "" →
  serve w ev (POST_login u p) = (login w u p (now ev), w).
Proof.
  intros Hu Hp. simpl.
  by rewrite (bool_decide_eq_false_2 _ Hu), (bool_decide_eq_false_2 _ Hp).
Qed.

(** The row that a registration stores. *)
Lemma lookup_registered rows row ident :
  (∀ r, r ∈ rows → email r ≠ ident ∧ username r ≠ Some ident) →
  (email row = ident ∨ username row = Some ident) →
  get_user_by_email_or_username (rows ++ [row]) ident = Some row.
Proof.
  intros Hnone Hrow. unfold get_user_by_email_or_username.
  rewrite find_app_none by (by apply lookup_none_iff). simpl.
  destruct Hrow as [Hrow|Hrow].
  - by rewrite (bool_decide_eq_true_2 _ Hrow).
  - rewrite (bool_decide_eq_true_2 _ Hrow). by rewrite orb_true_r.
Qed.

(** X6: registration followed by login.  Let the body carry a non-empty
    email, a non-empty password that the hasher accepts and, if any, an
    age that fits 64 bits.  When no stored row has the new email as its
    email or as its username, the registration succeeds, the table
    afterwards is the table before followed by the new row, and a login
    with that email and the registered password is answered with an
    access token for that email and changes nothing; if moreover the
    new username is not empty and no stored row has it as its email or
    as its username, a login with the username is answered with the
    same token. *)
Theorem register_then_login (w : world) (user : RegisterUser.t) (ev ev' : env) :
  RegisterUser.email user ≠ "" →
  RegisterUser.password user ≠ "" →
  pwd_context.refused (RegisterUser.password user) = false →
  from_option fits_integer true (RegisterUser.age user) = true →
  (∀ r, r ∈ users w →
        email r ≠ RegisterUser.email user
        ∧ username r ≠ Some (RegisterUser.email user)) →
  let after := serve w ev (POST_register user) in
  let token := create_access_token {[ "sub" := JStr (RegisterUser.email user) ]}
                 ACCESS_TOKEN_EXPIRE_MINUTES (now ev') in
  after.1 = Return (Message "User registered successfully")
  ∧ users after.2
    = users w ++
      [ {| id := next_id (users w);
           username := Some (RegisterUser.username user);
           password := pwd_context.Bcrypt (salt ev)
                         (bcrypt (salt ev)
                            (String.substring 0 72 (RegisterUser.password user)));
           email := RegisterUser.email user;
           age := RegisterUser.age user;
           location := RegisterUser.location user;
           phone := RegisterUser.phone user;
           language := RegisterUser.language user |} ]
  ∧ serve after.2 ev'
      (POST_login (RegisterUser.email user) (RegisterUser.password user))
    = (Return (Bearer token "bearer"), after.2)
  ∧ (RegisterUser.username user ≠ "" →
     (∀ r, r ∈ users w →
           email r ≠ RegisterUser.username user
           ∧ username r ≠ Some (RegisterUser.username user)) →
     serve after.2 ev'
       (POST_login (RegisterUser.username user) (RegisterUser.password user))
     = (Return (Bearer token "bearer"), after.2)).
Proof.
  intros Hemail Hpw Hacc Hage Hfresh after token. subst after token.
  change (serve w ev (POST_register user)) with (register w user (salt ev)).
  rewrite register_fresh by (try done; intros r Hr; by apply Hfresh).
  cbn [fst snd]. split; [done|]. split; [done|].
  set (row := {| id := next_id (users w);
                 username := Some (RegisterUser.username user);
                 password := pwd_context.Bcrypt (salt ev)
                               (pwd_context.checksum_of (salt ev)
                                  (RegisterUser.password user));
                 email := RegisterUser.email user;
                 age := RegisterUser.age user;
                 location := RegisterUser.location user;
                 phone := RegisterUser.phone user;
                 language := RegisterUser.language user |}).
  split.
  - rewrite serve_login by done. f_equal.
    apply (login_accepted _ _ _ _ row); [|by apply hash_verify_same].
    apply lookup_registered; [done | by left].
  - intros Hname Hnone. rewrite serve_login by done. f_equal.
    apply (login_accepted _ _ _ _ row); [|by apply hash_verify_same].
    apply lookup_registered; [done | by right].
Qed.

(** X7: login followed by a profile read.  In a table with unique
    emails, when the identifier resolves to a user with a non-empty email
    and the password verifies, the token that the login returns, used at
    any time up to sixty minutes later, reads exactly that user's
    username, email, age, location, phone and language, and changes
    nothing. *)
Theorem login_then_profile (w : world) (ident pw : string) (t0 : Z) (u : user) (ev : env) :
  unique_emails (users w) →
  get_user_by_email_or_username (users w) ident = Some u →
  verify_password pw (password u) = Return true →
  email u ≠ "" →
  now ev ≤ t0 + 60 * ACCESS_TOKEN_EXPIRE_MINUTES →
  ∃ token,
    login w ident pw t0 = Return (Bearer token "bearer")
    ∧ serve w ev (GET_profile token)
      = (Return (Profile (username u) (email u) (age u) (location u)
                   (phone u) (language u)), w).
Proof.
  intros Hnd Hu Hpw Hemail Hnow. eexists. split; [by apply login_accepted|].
  simpl. rewrite current_user_issued.
  assert ((t0 + 60 * ACCESS_TOKEN_EXPIRE_MINUTES <? now ev) = false) as ->
    by (apply Z.ltb_ge; lia).
  rewrite bool_decide_eq_false_2 by done.
  apply lookup_some in Hu as [Hin _].
  by rewrite (select_by_email_unique _ _ Hnd Hin).
Qed.

End RoundTrips.

Lemma register_then_login_witness :
  let after := serve (H := sample_externals) sample_world sample_env
                 (POST_register bob_form) in
  users after.2
  = [ alice;
      {| id := 2; username := Some "bob";
         password := pwd_context.Bcrypt "s1" (sample_kdf "s1" "pw2");
         email := "b@x.com"; age := None; location := Some "NYC";
         phone := None; language := None |} ]
  ∧ serve (H := sample_externals) after.2 sample_env (POST_login "b@x.com" "pw2")
    = (Return (Bearer (create_access_token (H := sample_externals)
                         {[ "sub" := JStr "b@x.com" ]}
                         ACCESS_TOKEN_EXPIRE_MINUTES 2000) "bearer"),
       after.2).
Proof.
  assert (∀ r, r ∈ users sample_world →
               email r ≠ RegisterUser.email bob_form
               ∧ username r ≠ Some (RegisterUser.email bob_form)) as Hfresh.
  { intros r Hr. apply list_elem_of_singleton in Hr as ->. split; discriminate. }
  assert (RegisterUser.email bob_form ≠ "") as Hemail by discriminate.
  assert (RegisterUser.password bob_form ≠ "") as Hpw by discriminate.
  destruct (register_then_login (H := sample_externals) sample_world bob_form
              sample_env sample_env Hemail Hpw eq_refl eq_refl Hfresh)
    as (_ & Hrows & Hlogin & _).
  split; [exact Hrows | exact Hlogin].
Defined.

Lemma login_then_profile_witness :
  ∃ token,
    login (H := sample_externals) sample_world "alice" "pw1" 1000
    = Return (Bearer token "bearer")
    ∧ serve (H := sample_externals) sample_world sample_env (GET_profile token)
      = (Return (Profile (Some "alice") "a@x.com" None None None None),
         sample_world).
Proof.
  apply (login_then_profile (H := sample_externals) sample_world "alice" "pw1"
           1000 alice sample_env).
  - apply NoDup_singleton.
  - reflexivity.
  - reflexivity.
  - discriminate.
  - vm_compute. discriminate.
Defined.

(** ** Tokens over time and across requests *)

Section TokenLifetime.
Context `{Externals}.

(** Which rows are stored matters to the dependency only through the
    lookup of the subject. *)
Lemma current_user_subject rows tok now r :
  get_current_user rows tok now = Return r →
  ∃ e, select_by_email rows e = Some r
       ∧ ∀ rows', get_current_user rows' tok now
                  = match select_by_email rows' e with
                    | None => Raise (HTTPException 401 "User not found")
                    | Some row => Return row
                    end.
Proof.
  unfold get_current_user.
  destruct (jwt.decode tok SECRET_KEY [ALGORITHM] now) as [payload|err]; simpl.
  - destruct (payload !! "sub") as [[e|n]|]; [|done..].
    destruct (bool_decide (e = "")); [done|].
    destruct (select_by_email rows e) as [row|] eqn:Hrow; [|done].
    intros [= ->]. by exists e.
  - by destruct err.
Qed.

Lemma current_user_failure rows tok now detail :
  get_current_user rows tok now = Raise (HTTPException 401 detail) →
  detail = "Invalid token" ∧ (∀ rows', get_current_user rows' tok now
                                       = Raise (HTTPException 401 "Invalid token"))
  ∨ detail = "User not found"
    ∧ ∃ e, select_by_email rows e = None
           ∧ ∀ rows', get_current_user rows' tok now
                      = match select_by_email rows' e with
                        | None => Raise (HTTPException 401 "User not found")
                        | Some row => Return row
                        end.
Proof.
  unfold get_current_user.
  destruct (jwt.decode tok SECRET_KEY [ALGORITHM] now) as [payload|err] eqn:Hd;
    simpl.
  - destruct (payload !! "sub") as [[e|n]|];
      [|intros [= <-]; by left..].
    destruct (bool_decide (e = "")); [intros [= <-]; by left|].
    destruct (select_by_email rows e) as [row|] eqn:Hrow; [done|].
    intros [= <-]. right. split; [done|]. by exists e.
  - apply decode_raises in Hd as ->. intros [= <-]. by left.
Qed.

Lemma select_by_email_map (g : user → user) rows e :
  (∀ r, email (g r) = email r) →
  select_by_email (map g rows) e = g <$> select_by_email rows e.
Proof.
  intros Hg. unfold select_by_email. apply find_map.
  intros r. by rewrite Hg.
Qed.

Lemma select_by_email_app rows extra e r :
  select_by_email rows e = Some r → select_by_email (rows ++ extra) e = Some r.
Proof.
  unfold select_by_email. induction rows as [|r0 rows IH]; [done|]. simpl.
  destruct (bool_decide (email r0 = e)); [done | exact IH].
Qed.

Lemma serve_keeps_account w ev req tok now r :
  get_current_user (users w) tok now = Return r →
  ∃ r', get_current_user (users (serve w ev req).2) tok now = Return r'
        ∧ id r' = id r ∧ email r' = email r.
Proof.
  intros Hr. destruct (current_user_subject _ _ _ _ Hr) as (e & Hsel & Hany).
  destruct (serve_shape w ev req) as (g & extra & -> & Hg & _ & _).
  exists (g r). rewrite Hany.
  rewrite (select_by_email_app _ _ _ (g r)).
  - split; [done|]. split; apply Hg.
  - rewrite select_by_email_map by (intros r0; apply Hg). by rewrite Hsel.
Qed.

(** X8: the service revokes nothing.  A request other than a
    registration (a password reset, a profile update, ...) changes the
    outcome of no authentication: the same token at the same time gives
    the same account or the same failure before and after it; and a token
    that authenticates as some account does so, at the same time, after
    every sequence of requests. *)
Theorem authentication_survives (w : world) (tok : jwt.token) (now : Z) :
  (∀ ev req, (∀ user, req ≠ POST_register user) →
     same_account (get_current_user (users w) tok now)
                  (get_current_user (users (serve w ev req).2) tok now))
  ∧ (∀ r, get_current_user (users w) tok now = Return r →
       ∀ trace, ∃ r', get_current_user (users (run w trace)) tok now = Return r'
                      ∧ id r' = id r ∧ email r' = email r).
Proof.
  split.
  - intros ev req Hreq.
    destruct (serve_shape w ev req) as (g & extra & -> & Hg & _ & Hnone).
    rewrite (Hnone Hreq), app_nil_r.
    destruct (get_current_user (users w) tok now) as [r|err] eqn:Hr.
    + destruct (current_user_subject _ _ _ _ Hr) as (e & Hsel & Hany).
      rewrite Hany, select_by_email_map by (intros r0; apply Hg).
      rewrite Hsel. simpl. split; apply Hg.
    + destruct (current_user_outcome (users w) tok now)
        as [(row & Hrow & _)|(detail & Hd)]; [congruence|].
      rewrite Hr in Hd. injection Hd as ->.
      destruct (current_user_failure _ _ _ _ Hr)
        as [[-> Hany]|(-> & e & Hsel & Hany)]; rewrite Hany; [done|].
      rewrite select_by_email_map by (intros r0; apply Hg).
      by rewrite Hsel.
  - intros r Hr trace. revert w r Hr.
    induction trace as [|[ev req] rest IH]; intros w r Hr; simpl.
    + by exists r.
    + destruct (serve_keeps_account w ev req tok now r Hr) as (r1 & H1 & Hid1 & He1).
      destruct (IH _ r1 H1) as (r2 & H2 & Hid2 & He2).
      exists r2. split; [done|]. split; congruence.
Qed.

(** X9: the algorithm is pinned.  A token whose header names any
    algorithm other than HS256 is refused by both consumers, whatever its
    claims and whatever its signature, and a refused reset changes
    nothing. *)
Theorem algorithm_pinned (alg : string) (payload : gmap string jval)
    (signature : string) (now : Z) :
  alg ≠ ALGORITHM →
  (∀ rows, get_current_user rows (jwt.Signed alg payload signature) now
           = Raise (HTTPException 401 "Invalid token"))
  ∧ (∀ w new salt,
       reset_password w
         {| ResetPasswordRequest.token := jwt.Signed alg payload signature;
            ResetPasswordRequest.new_password := new |} salt now
       = (Raise (HTTPException 400 "Invalid or expired token"), w)).
Proof.
  intros Halg.
  assert (jwt.decode (jwt.Signed alg payload signature) SECRET_KEY [ALGORITHM] now
          = Raise JWTError) as Hd.
  { unfold jwt.decode. rewrite bool_decide_eq_false_2; [done|].
    intros Hin. by apply list_elem_of_singleton in Hin. }
  split.
  - intros rows. by apply current_user_decode_error.
  - intros w new salt. unfold reset_password.
    cbn [ResetPasswordRequest.token ResetPasswordRequest.new_password].
    by rewrite Hd.
Qed.

(** X10: when exactly an issued token is accepted.  The token issued
    for subject [s] at [t0] with a lifetime of [minutes] authenticates as
    [row] exactly when the clock has not passed the expiry, the second of
    the expiry included, [s] is not empty and [row] is the first stored
    row with email [s]; and a reset with it succeeds exactly when the
    clock has not passed the expiry, [s] is not empty and the hasher
    accepts the new password, whether or not a row has that email. *)
Theorem issued_token_accepted_iff (s : string) (minutes t0 now : Z) :
  let token := create_access_token {[ "sub" := JStr s ]} minutes t0 in
  (∀ rows row,
     get_current_user rows token now = Return row
     ↔ now ≤ t0 + 60 * minutes ∧ s ≠ "" ∧ select_by_email rows s = Some row)
  ∧ (∀ w new salt,
       (reset_password w {| ResetPasswordRequest.token := token;
                            ResetPasswordRequest.new_password := new |}
          salt now).1 = Return (Message "Password reset successful")
       ↔ now ≤ t0 + 60 * minutes ∧ s ≠ "" ∧ pwd_context.refused new = false).
Proof.
  intros token. subst token. split.
  - intros rows row. rewrite current_user_issued.
    destruct (Z.ltb_spec (t0 + 60 * minutes) now) as [Hlt|Hge].
    + split; [done | intros (Hle & _); lia].
    + destruct (bool_decide (s = "")) eqn:Hs.
      * apply bool_decide_eq_true in Hs. split; [done | by intros (_ & ? & _)].
      * apply bool_decide_eq_false in Hs.
        destruct (select_by_email rows s) as [row'|].
        -- split; [intros [= ->]; by repeat split | by intros (_ & _ & [= ->])].
        -- split; [done | by intros (_ & _ & ?)].
  - intros w new salt. unfold reset_password.
    cbn [ResetPasswordRequest.token ResetPasswordRequest.new_password].
    rewrite decode_issued.
    destruct (Z.ltb_spec (t0 + 60 * minutes) now) as [Hlt|Hge]; simpl.
    + split; [done | intros (Hle & _); lia].
    + rewrite issued_payload_sub.
      destruct (bool_decide (s = "")) eqn:Hs; simpl.
      * apply bool_decide_eq_true in Hs. split; [done | by intros (_ & ? & _)].
      * apply bool_decide_eq_false in Hs.
        unfold get_password_hash, pwd_context.hash.
        destruct (pwd_context.refused new); simpl.
        -- split; [done | by intros (_ & _ & ?)].
        -- by split.
Qed.

End TokenLifetime.

Lemma authentication_survives_witness :
  ∃ r', get_current_user (H := sample_externals)
          (users (run (H := sample_externals) sample_world sample_trace))
          alice_token 4000 = Return r'
        ∧ id r' = id alice ∧ email r' = email alice.
Proof.
  destruct (authentication_survives (H := sample_externals) sample_world
              alice_token 4000) as [_ Hrun].
  apply Hrun. vm_compute. reflexivity.
Defined.

Lemma algorithm_pinned_witness :
  get_current_user (H := sample_externals) [alice]
    (jwt.Signed "none" (<["exp" := JInt 4600]> {[ "sub" := JStr "a@x.com" ]}) "")
    1500
  = Raise (HTTPException 401 "Invalid token").
Proof.
  assert ("none" ≠ ALGORITHM) as Halg by discriminate.
  destruct (algorithm_pinned (H := sample_externals) "none"
              (<["exp" := JInt 4600]> {[ "sub" := JStr "a@x.com" ]}) "" 1500 Halg)
    as [Hauth _].
  apply Hauth.
Defined.

Lemma issued_token_accepted_iff_witness :
  get_current_user (H := sample_externals) [alice]
    (create_access_token (H := sample_externals)
       {[ "sub" := JStr "a@x.com" ]} 60 1000) 4600
  = Return alice
  ∧ (reset_password (H := sample_externals) sample_world
       {| ResetPasswordRequest.token :=
            create_access_token (H := sample_externals)
              {[ "sub" := JStr "a@x.com" ]} 60 1000;
          ResetPasswordRequest.new_password := "pw9" |} "s1" 4600).1
    = Return (Message "Password reset successful").
Proof.
  destruct (issued_token_accepted_iff (H := sample_externals) "a@x.com" 60 1000 4600)
    as [Hauth Hreset].
  split.
  - apply Hauth. split; [lia|]. split; [discriminate | reflexivity].
  - apply Hreset. split; [lia|]. split; [discriminate | reflexivity].
Defined.

(** ** Password reset: errors and frame *)

Section ResetEdges.
Context `{Externals}.




End ResetEdges.


(** ** Profile updates compose *)

Section UpdatesCompose.
Context `{Externals}.

Lemma current_user_map (g : user → user) rows tok now :
  (∀ r, email (g r) = email r) →
  get_current_user (map g rows) tok now
  = match get_current_user rows tok now with
    | Return r => Return (g r)
    | Raise e => Raise e
    end.
Proof.
  intros Hg. unfold get_current_user.
  destruct (jwt.decode tok SECRET_KEY [ALGORITHM] now) as [payload|err]; simpl.
  - destruct (payload !! "sub") as [[e|n]|]; [|done..].
    destruct (bool_decide (e = "")); [done|].
    rewrite select_by_email_map by done.
    by destruct (select_by_email rows e).
  - by destruct err.
Qed.

Lemma patch_idempotent payload r : patch payload (patch payload r) = patch payload r.
Proof. destruct payload as [[u|] [a|] [l|] [p|] [g|]]; reflexivity. Qed.

(** X12: two profile updates in a row.  When the same token
    authenticates both requests and neither body carries an age outside
    64 bits, the second update is applied on top of the first, field by
    field, in the rows of the user's email, and all else is untouched:
    the other rows, the outbox and the console; in particular sending
    the same update twice leaves the state that sending it once
    leaves. *)
Theorem profile_updates_compose (w : world) (ev ev' : env) (token : jwt.token)
    (p1 p2 : UpdateProfile.t) (cu : user) :
  get_current_user (users w) token (now ev) = Return cu →
  get_current_user (users w) token (now ev') = Return cu →
  from_option fits_integer true (UpdateProfile.age p1) = true →
  from_option fits_integer true (UpdateProfile.age p2) = true →
  let once := serve w ev (PUT_profile token p1) in
  let twice := serve once.2 ev' (PUT_profile token p2) in
  users twice.2 = map (λ r, if bool_decide (email r = email cu)
                            then patch p2 (patch p1 r) else r) (users w)
  ∧ outbox twice.2 = outbox w ∧ console twice.2 = console w
  ∧ (p1 = p2 → twice.2 = once.2).
Proof.
  intros Hcu Hcu' Ha1 Ha2 once twice. subst once twice.
  rewrite (serve_put_profile _ _ _ _ _ Hcu), update_profile_state by done.
  set (g1 := λ r, if bool_decide (email r = email cu) then patch p1 r else r).
  assert (∀ r, email (g1 r) = email r) as Hg1.
  { intros r. unfold g1. by destruct (bool_decide (email r = email cu)). }
  assert (get_current_user (users (with_users w (map g1 (users w)))) token (now ev')
          = Return (g1 cu)) as Hcu1.
  { simpl. by rewrite current_user_map, Hcu'. }
  rewrite (serve_put_profile _ _ _ _ _ Hcu1), update_profile_state by done.
  simpl.
  assert (map (λ r, if bool_decide (email r = email (g1 cu)) then patch p2 r else r)
            (map g1 (users w))
          = map (λ r, if bool_decide (email r = email cu)
                      then patch p2 (patch p1 r) else r) (users w)) as Hmap.
  { rewrite map_map. apply map_ext. intros r. rewrite !Hg1. unfold g1.
    by destruct (bool_decide (email r = email cu)). }
  split; [exact Hmap|]. split; [done|]. split; [done|].
  intros <-. unfold with_users. simpl. rewrite Hmap. f_equal.
  apply map_ext. intros r. unfold g1.
  destruct (bool_decide (email r = email cu)); [|done].
  apply patch_idempotent.
Qed.

End UpdatesCompose.

Lemma profile_updates_compose_witness :
  users (serve (H := sample_externals)
           (serve (H := sample_externals) sample_world sample_env
              (PUT_profile alice_token age_31)).2
           sample_env (PUT_profile alice_token to_nyc)).2
  = [ {| id := 1; username := Some "alice";
         password := pwd_context.Bcrypt "s0" (sample_kdf "s0" "pw1");
         email := "a@x.com"; age := Some 31; location := Some "NYC";
         phone := None; language := None |} ].
Proof.
  assert (get_current_user (H := sample_externals) (users sample_world)
            alice_token (now sample_env) = Return alice) as Hcu
    by (vm_compute; reflexivity).
  destruct (profile_updates_compose (H := sample_externals) sample_world
              sample_env sample_env alice_token age_31 to_nyc alice Hcu Hcu
              eq_refl eq_refl)
    as [Hrows _].
  exact Hrows.
Defined.

(** ** Where reset links go *)

Section ResetMail.
Context `{Externals}.

Lemma serve_outbox w ev req :
  outbox (serve w ev req).2 = outbox w
  ∨ ∃ m, outbox (serve w ev req).2 = outbox w ++ [m]
         ∧ addressed m ∧ mail_to m ∈ email <$> users w.
Proof.
  destruct req as [user|u p|token|token payload|ident|payload]; simpl.
  - left. unfold register.
    destruct (_ ← get_password_hash _ _; insert_user _ _ _ _ _ _ _ _)
      as [rows|err]; [done|]. by destruct err.
  - left. by destruct (bool_decide (u = "") || bool_decide (p = "")).
  - by left.
  - left. destruct (get_current_user (users w) token (now ev)) as [cu|err]; [|done].
    apply update_profile_channels.
  - unfold forgot_password.
    destruct (get_user_by_email_or_username (users w) ident) as [u|] eqn:Hu;
      [|by left].
    simpl. unfold send_reset_email. destruct (smtp_ok ev); [|by left].
    right. eexists. split; [reflexivity|]. simpl. split.
    + eexists _, _, _. rewrite issued_shape. split; [reflexivity|].
      apply issued_payload_sub.
    + apply lookup_some in Hu as [Hin _]. by apply list_elem_of_fmap_2.
  - left. unfold reset_password.
    destruct (jwt.decode _ _ _ _) as [data|err]; simpl.
    + destruct (data !! "sub") as [[s|n]|]; [|done..].
      destruct (bool_decide (s = "")); [done|].
      by destruct (get_password_hash _ _).
    + by destruct err.
Qed.

Lemma serve_keeps_emails w ev req e :
  e ∈ email <$> users w → e ∈ email <$> users (serve w ev req).2.
Proof.
  intros He. destruct (serve_shape w ev req) as (g & extra & -> & Hg & _ & _).
  rewrite fmap_app, map_keeps_emails by (intros r; apply Hg).
  apply elem_of_app. by left.
Qed.

Lemma serve_mail_to_owners w ev req :
  mail_to_owners w → mail_to_owners (serve w ev req).2.
Proof.
  unfold mail_to_owners. intros Hw.
  assert (Forall (λ m, addressed m
                       ∧ mail_to m ∈ email <$> users (serve w ev req).2)
            (outbox w)) as Hold.
  { eapply Forall_impl; [exact Hw|]. intros m [Ha Hm].
    split; [done | by apply serve_keeps_emails]. }
  destruct (serve_outbox w ev req) as [->|(m & -> & Ha & Hm)]; [done|].
  apply Forall_app. split; [done|]. apply Forall_singleton.
  split; [done | by apply serve_keeps_emails].
Qed.

(** X13: reset links go to the owner.  If so far every mail handed to
    the server went to the email of a stored row and carried a token
    whose subject is that email, then the same holds after every sequence
    of requests; in particular it holds of every state reached from an
    empty outbox. *)
Theorem reset_mail_goes_to_owner (w : world) :
  mail_to_owners w → ∀ trace, mail_to_owners (run w trace).
Proof.
  intros Hw trace. revert w Hw.
  induction trace as [|[ev req] rest IH]; intros w Hw; simpl; [done|].
  apply IH. by apply serve_mail_to_owners.
Qed.

End ResetMail.

Lemma reset_mail_goes_to_owner_witness :
  mail_to_owners
    (run (H := sample_externals) sample_world
       [ (sample_env, POST_forgot_password "alice");
         (sample_env, POST_register bob_form);
         (sample_env, POST_forgot_password "b@x.com") ]).
Proof.
  apply (reset_mail_goes_to_owner (H := sample_externals) sample_world).
  apply Forall_nil_2.
Defined.

(** * The reference client against the service *)

Section ClientSignup.
Context `{Externals}.
Variable strip : string → string.

Lemma truthy_nonempty s : truthy s = true ↔ s ≠ "".
Proof. unfold truthy. rewrite negb_true_iff. apply String.eqb_neq. Qed.

Lemma or_none_truthy s : truthy s = true → or_none s = Some s.
Proof. unfold or_none. by intros ->. Qed.

Lemma register_clicked_request f req :
  register_clicked strip f = Some req →
  signup_username f ≠ "" ∧ signup_email f ≠ "" ∧ signup_password f ≠ ""
  ∧ req = POST_register
            {| RegisterUser.username := signup_username f;
               RegisterUser.email := signup_email f;
               RegisterUser.password := signup_password f;
               RegisterUser.age :=
                 if signup_age f >? 0 then Some (signup_age f) else None;
               RegisterUser.location := or_none (strip (signup_location f));
               RegisterUser.phone := or_none (strip (signup_phone f));
               RegisterUser.language := or_none (signup_language f) |}.
Proof.
  unfold register_clicked.
  destruct (truthy (signup_username f)) eqn:Hu; [|done].
  destruct (truthy (signup_email f)) eqn:He; [|done].
  destruct (truthy (signup_password f)) eqn:Hp; [|done]. simpl.
  intros [= <-]. apply truthy_nonempty in Hu, He, Hp.
  repeat split; try done. unfold api_register. do 2 f_equal.
  - destruct (Z.gtb_spec (signup_age f) 0) as [Hpos|Hle]; [|done].
    by destruct (Z.eqb_spec (signup_age f) 0) as [H0|_]; [lia|].
  - unfold or_none. by destruct (truthy (signup_language f)) eqn:Hl; [rewrite Hl|].
Qed.

Lemma select_appended rows row :
  (∀ r, r ∈ rows → email r ≠ email row) →
  select_by_email (rows ++ [row]) (email row) = Some row.
Proof.
  intros Hfresh. unfold select_by_email. rewrite find_app_none.
  - simpl. by rewrite bool_decide_eq_true_2.
  - induction rows as [|r rows IH]; [done|]. simpl.
    rewrite bool_decide_eq_false_2 by (apply Hfresh; by left).
    apply IH. intros r' Hr'. apply Hfresh. by right.
Qed.

(** What a number input with bounds 0 and 120 returns fits 64 bits. *)
Lemma widget_age_fits n : 0 ≤ n ≤ 120 → fits_integer n = true.
Proof.
  intros Hn. unfold fits_integer. apply andb_true_iff.
  split; [apply Z.leb_le | apply Z.ltb_lt]; lia.
Qed.

(** X14: signing up through the form, then logging in and reading the
    profile.  The form sends a request only when the entered username,
    email and password are all non-empty.  When it does, with the age
    that its number input returns (between 0 and 120) and a password
    that the hasher accepts, and no stored row has the entered email as
    its email or username, the registration succeeds; a login with the
    entered email and password returns a token and changes nothing; and
    that token, for sixty minutes, reads a profile with the entered
    username and email, the age when it is positive and null otherwise,
    the location and the phone stripped, or null when they strip to
    nothing, and the chosen language, or null for the blank choice. *)
Theorem signup_round_trip (w : world) (f : signup_form) (req : request)
    (ev ev0 ev' : env) :
  register_clicked strip f = Some req →
  0 ≤ signup_age f ≤ 120 →
  pwd_context.refused (signup_password f) = false →
  (∀ r, r ∈ users w →
        email r ≠ signup_email f ∧ username r ≠ Some (signup_email f)) →
  now ev' ≤ now ev0 + 60 * ACCESS_TOKEN_EXPIRE_MINUTES →
  let registered := serve w ev req in
  signup_username f ≠ "" ∧ signup_email f ≠ "" ∧ signup_password f ≠ ""
  ∧ registered.1 = Return (Message "User registered successfully")
  ∧ ∃ token,
      serve registered.2 ev0 (POST_login (signup_email f) (signup_password f))
      = (Return (Bearer token "bearer"), registered.2)
      ∧ serve registered.2 ev' (GET_profile token)
        = (Return (Profile (Some (signup_username f)) (signup_email f)
                     (if signup_age f >? 0 then Some (signup_age f) else None)
                     (or_none (strip (signup_location f)))
                     (or_none (strip (signup_phone f)))
                     (or_none (signup_language f))),
           registered.2).
Proof.
  intros Hreq Hage Hacc Hfresh Hnow registered. subst registered.
  apply register_clicked_request in Hreq as (Hu & He & Hp & ->).
  split; [done|]. split; [done|]. split; [done|].
  change (serve w ev (POST_register ?user)) with (register w user (salt ev)).
  rewrite register_fresh; cbn [RegisterUser.password RegisterUser.age
    RegisterUser.email RegisterUser.username RegisterUser.location
    RegisterUser.phone RegisterUser.language fst snd];
    [|done
     |destruct (signup_age f >? 0); [by apply widget_age_fits | done]
     |intros r Hr; by apply Hfresh].
  split; [done|].
  set (row := {| id := next_id (users w);
                 username := Some (signup_username f);
                 password := pwd_context.Bcrypt (salt ev)
                               (pwd_context.checksum_of (salt ev)
                                  (signup_password f));
                 email := signup_email f;
                 age := if signup_age f >? 0 then Some (signup_age f) else None;
                 location := or_none (strip (signup_location f));
                 phone := or_none (strip (signup_phone f));
                 language := or_none (signup_language f) |}).
  eexists. split.
  - rewrite serve_login by done. f_equal.
    apply (login_accepted _ _ _ _ row); [|by apply hash_verify_same].
    apply lookup_registered; [done | by left].
  - cbn [serve email row]. rewrite current_user_issued.
    assert ((now ev0 + 60 * ACCESS_TOKEN_EXPIRE_MINUTES <? now ev') = false) as ->
      by (apply Z.ltb_ge; lia).
    rewrite bool_decide_eq_false_2 by done.
    assert (select_by_email (users w ++ [row]) (signup_email f) = Some row) as Hsel.
    { apply (select_appended (users w) row). intros r Hr. by apply Hfresh. }
    cbn [users with_users]. by rewrite Hsel.
Qed.

End ClientSignup.

Lemma signup_round_trip_witness :
  let registered :=
    serve (H := sample_externals) sample_world sample_env
      (POST_register
         {| RegisterUser.username := "bob"; RegisterUser.email := "b@x.com";
            RegisterUser.password := "pw2"; RegisterUser.age := None;
            RegisterUser.location := Some "NYC"; RegisterUser.phone := None;
            RegisterUser.language := Some "Hindi" |}) in
  registered.1 = Return (Message "User registered successfully")
  ∧ ∃ token,
      serve (H := sample_externals) registered.2 sample_env (GET_profile token)
      = (Return (Profile (Some "bob") "b@x.com" None (Some "NYC") None
                   (Some "Hindi")),
         registered.2).
Proof.
  assert (∀ r, r ∈ users sample_world →
               email r ≠ signup_email bob_signup
               ∧ username r ≠ Some (signup_email bob_signup)) as Hfresh.
  { intros r Hr. apply list_elem_of_singleton in Hr as ->. split; discriminate. }
  assert (now sample_env ≤ now sample_env + 60 * ACCESS_TOKEN_EXPIRE_MINUTES)
    as Hnow by (vm_compute; discriminate).
  assert (0 ≤ signup_age bob_signup ≤ 120) as Hage
    by (split; vm_compute; discriminate).
  destruct (signup_round_trip (H := sample_externals) sample_strip sample_world
              bob_signup _ sample_env sample_env sample_env
              eq_refl Hage eq_refl Hfresh Hnow)
    as (_ & _ & _ & Hok & token & _ & Hprofile).
  split; [exact Hok|]. exists token. exact Hprofile.
Defined.

Section ClientProfile.
Context `{Externals}.
Variable strip : string → string.

Lemma index_of_is_Some x l : is_Some (index_of x l) ↔ x ∈ l.
Proof.
  induction l as [|y l IH]; simpl.
  - split; [by intros [? ?] | intros Hx; by apply not_elem_of_nil in Hx].
  - destruct (String.eqb_spec y x) as [->|Hne].
    + split; [intros _; by left | by eexists].
    + rewrite fmap_is_Some, IH. split; [by right|].
      intros Hx. apply elem_of_cons in Hx as [->|Hx]; done.
Qed.

Lemma language_index_offered u e a l p g :
  is_Some (language_index (Profile u e a l p g)) ↔ offered g.
Proof.
  unfold language_index, offered. cbn [profile_language].
  destruct g as [s|]; [|split; [by left | by eexists]].
  destruct (truthy s) eqn:Hs.
  - rewrite index_of_is_Some. split; [right; by exists s|].
    intros [?|(s' & [= <-] & Hin)]; done.
  - apply negb_false_iff, String.eqb_eq in Hs as ->.
    split; [intros _; right; exists ""; split; [done | by left] | by eexists].
Qed.

Lemma save_clicked_request token profile f req :
  save_clicked strip token profile f = Some req →
  req = PUT_profile token
          {| UpdateProfile.username :=
               if String.eqb (new_username f) (or_empty (profile_username profile))
               then None else or_none (strip (new_username f));
             UpdateProfile.age :=
               if new_age f =? or_zero (profile_age profile)
               then None else Some (new_age f);
             UpdateProfile.location :=
               if String.eqb (new_location f) (or_empty (profile_location profile))
               then None else or_none (strip (new_location f));
             UpdateProfile.phone :=
               if String.eqb (new_phone f) (or_empty (profile_phone profile))
               then None else or_none (strip (new_phone f));
             UpdateProfile.language :=
               if String.eqb (new_language f) (or_empty (profile_language profile))
               then None else or_none (new_language f) |}.
Proof.
  unfold save_clicked. destruct (no_updates _); [done|]. intros [= <-].
  unfold api_update_profile, collect_updates. simpl.
  destruct (String.eqb (new_username f) _), (new_age f =? _),
    (String.eqb (new_location f) _), (String.eqb (new_phone f) _),
    (String.eqb (new_language f) _); reflexivity.
Qed.

Lemma save_clicked_nothing token profile f :
  save_clicked strip token profile f = None
  ↔ new_username f = or_empty (profile_username profile)
    ∧ new_location f = or_empty (profile_location profile)
    ∧ new_language f = or_empty (profile_language profile)
    ∧ new_age f = or_zero (profile_age profile)
    ∧ new_phone f = or_empty (profile_phone profile).
Proof.
  unfold save_clicked, no_updates, collect_updates. simpl.
  destruct (String.eqb_spec (new_username f) (or_empty (profile_username profile)));
    destruct (String.eqb_spec (new_location f) (or_empty (profile_location profile)));
    destruct (String.eqb_spec (new_language f) (or_empty (profile_language profile)));
    destruct (Z.eqb_spec (new_age f) (or_zero (profile_age profile)));
    destruct (String.eqb_spec (new_phone f) (or_empty (profile_phone profile)));
    simpl; split; try done; intros (?&?&?&?&?); done.
Qed.

(** X15: what "Save Changes" does to the stored profile.  The page
    shows the profile of the authenticated user.  The script stops
    before the buttons exactly when the stored language is neither null
    nor one of the offered choices, so that the lookup of the selector's
    index fails, or the stored age is outside the bounds 0 and 120 of
    the number input.  Otherwise the form sends nothing exactly when no
    widget differs from what is shown.  When it sends, with the age
    that the number input returns (between 0 and 120), the update is
    answered with success and, in the user's row: a text field whose
    widget differs from what is shown takes the stripped entry, or keeps
    its stored value when the entry strips to nothing; the language takes
    the chosen one, or keeps its stored value for the blank choice; the
    age takes the entry whenever it differs from what is shown, zero
    included; a field whose widget is unchanged keeps its value; email
    and password are kept; and no attribute that was set becomes null. *)
Theorem save_changes_effect (w : world) (ev : env) (token : jwt.token)
    (f : profile_form) (cu : user) :
  get_current_user (users w) token (now ev) = Return cu →
  0 ≤ new_age f ≤ 120 →
  let profile := Profile (username cu) (email cu) (age cu) (location cu)
                   (phone cu) (language cu) in
  (profile_page_save strip token profile f = None
   ↔ ¬ offered (language cu) ∨ ¬ 0 ≤ or_zero (age cu) ≤ 120)
  ∧ (profile_page_save strip token profile f = Some None
     ↔ offered (language cu)
       ∧ 0 ≤ or_zero (age cu) ≤ 120
       ∧ new_username f = or_empty (username cu)
       ∧ new_location f = or_empty (location cu)
       ∧ new_language f = or_empty (language cu)
       ∧ new_age f = or_zero (age cu)
       ∧ new_phone f = or_empty (phone cu))
  ∧ ∀ req, profile_page_save strip token profile f = Some (Some req) →
      let after := serve w ev req in
      (∃ message, after.1 = Return (Message message))
      ∧ ∀ (i : nat) r, users w !! i = Some r → email r = email cu →
          ∃ r', users after.2 !! i = Some r'
                ∧ never_nulled r r'
                ∧ email r' = email r ∧ password r' = password r
                ∧ username r'
                  = (if String.eqb (new_username f) (or_empty (username cu))
                     then username r
                     else supplied (or_none (strip (new_username f))) (username r))
                ∧ location r'
                  = (if String.eqb (new_location f) (or_empty (location cu))
                     then location r
                     else supplied (or_none (strip (new_location f))) (location r))
                ∧ language r'
                  = (if String.eqb (new_language f) (or_empty (language cu))
                     then language r
                     else supplied (or_none (new_language f)) (language r))
                ∧ age r'
                  = (if new_age f =? or_zero (age cu) then age r
                     else Some (new_age f))
                ∧ phone r'
                  = (if String.eqb (new_phone f) (or_empty (phone cu))
                     then phone r
                     else supplied (or_none (strip (new_phone f))) (phone r)).
Proof.
  intros Hcu Hwidget profile. unfold profile_page_save.
  pose proof (language_index_offered (username cu) (email cu) (age cu)
                (location cu) (phone cu) (language cu)) as Hoff.
  fold profile in Hoff.
  assert (age_in_widget_range (or_zero (profile_age profile)) = true
          ↔ 0 ≤ or_zero (age cu) ≤ 120) as Hrange.
  { subst profile. cbn [profile_age]. unfold age_in_widget_range.
    rewrite andb_true_iff, Z.leb_le, Z.leb_le. done. }
  destruct (language_index profile) as [n|] eqn:Hidx.
  - assert (offered (language cu)) as Hyes by (apply Hoff; by eexists).
    destruct (age_in_widget_range (or_zero (profile_age profile))) eqn:Hage.
    + assert (0 ≤ or_zero (age cu) ≤ 120) as Hin by (by apply Hrange).
      split; [split; [done | by intros [Hno|Hout]]|]. split.
      * split.
        -- intros [= Hnone]. split; [done|]. split; [done|].
           by apply save_clicked_nothing in Hnone.
        -- intros (_ & _ & Hsame). f_equal. by apply save_clicked_nothing.
      * intros req [= Hreq].
        apply save_clicked_request in Hreq as ->. subst profile.
        cbn [profile_username profile_age profile_location profile_phone
             profile_language].
        rewrite (serve_put_profile _ _ _ _ _ Hcu).
        assert (from_option fits_integer true
                  (if new_age f =? or_zero (age cu) then None
                   else Some (new_age f)) = true) as Hfits.
        { destruct (new_age f =? or_zero (age cu)); [done|].
          by apply widget_age_fits. }
        split; [rewrite update_profile_response by exact Hfits; by eexists|].
        intros i r Hi He. rewrite update_profile_state by exact Hfits. simpl.
        rewrite list_lookup_fmap, Hi. simpl. rewrite (bool_decide_eq_true_2 _ He).
        eexists. split; [reflexivity|].
        split; [apply patch_never_nulled|].
        unfold patch. simpl.
        destruct (String.eqb (new_username f) _), (new_age f =? _),
          (String.eqb (new_location f) _), (String.eqb (new_phone f) _),
          (String.eqb (new_language f) _); repeat split; reflexivity.
    + assert (¬ 0 ≤ or_zero (age cu) ≤ 120) as Hout.
      { intros Hin. apply Hrange in Hin. discriminate. }
      split; [split; [by right | done]|]. split; [|done].
      split; [done | by intros (_ & Hin & _)].
  - assert (¬ offered (language cu)) as Hno.
    { intros Hyes. apply Hoff in Hyes as [? ?]. done. }
    split; [split; [by left | done]|]. split; [|done].
    split; [done | by intros (Hyes & _)].
Qed.

End ClientProfile.

Lemma save_changes_effect_witness :
  users (serve (H := sample_externals) sample_world sample_env
           (PUT_profile alice_token
              {| UpdateProfile.username := None; UpdateProfile.age := Some 31;
                 UpdateProfile.location := Some "Paris";
                 UpdateProfile.phone := None;
                 UpdateProfile.language := None |})).2 !! 0%nat
  = Some {| id := 1; username := Some "alice";
            password := pwd_context.Bcrypt "s0" (sample_kdf "s0" "pw1");
            email := "a@x.com"; age := Some 31; location := Some "Paris";
            phone := None; language := None |}.
Proof.
  assert (get_current_user (H := sample_externals) (users sample_world)
            alice_token (now sample_env) = Return alice) as Hcu
    by (vm_compute; reflexivity).
  assert (0 ≤ new_age alice_edit ≤ 120) as Hwidget
    by (split; vm_compute; discriminate).
  destruct (save_changes_effect (H := sample_externals) sample_strip sample_world
              sample_env alice_token alice_edit alice Hcu Hwidget)
    as (_ & _ & Hsend).
  destruct (Hsend _ eq_refl) as [_ Hrow].
  destruct (Hrow 0%nat alice eq_refl eq_refl)
    as (r' & Hr' & (Hid & _) & Hemail & Hpw & Hu & Hl & Hg & Ha & Hp).
  transitivity (Some r'); [exact Hr'|].
  destruct r'. simpl in *. vm_compute in Hu, Hl, Hg, Ha, Hp. by subst.
Defined.

(** A stored age above the bound of the number input, which the API
    accepts, stops the profile page although the language is offered. *)
Example age_outside_widget :
  profile_page_save sample_strip alice_token
    (Profile (Some "alice") "a@x.com" (Some 200) None None None) alice_edit
  = None.
Proof. reflexivity. Qed.

Section ClientLanguage.
Context `{Externals}.
Variable strip : string → string.

Lemma or_none_offered s : s ∈ LANGUAGES → offered (or_none s).
Proof.
  intros Hs. unfold or_none. destruct (truthy s); [right; by exists s | by left].
Qed.

Lemma supplied_offered new old : offered new → offered old → offered (supplied new old).
Proof. by destruct new. Qed.

(** X16: the language selector of the profile page.  Its index is
    defined exactly for a stored language that is null or one of the
    offered choices; for any other stored language the lookup in the list
    of choices fails.  A registration and a profile update sent by the
    forms with a language taken from the choices keep every stored
    language within them. *)
Theorem language_selector_defined (w : world) (ev : env) :
  (∀ u e a l p g, is_Some (language_index (Profile u e a l p g)) ↔ offered g)
  ∧ (Forall (λ r, offered (language r)) (users w) →
     (∀ f req, register_clicked strip f = Some req →
               signup_language f ∈ LANGUAGES →
               Forall (λ r, offered (language r)) (users (serve w ev req).2))
     ∧ (∀ token profile f req,
          save_clicked strip token profile f = Some req →
          new_language f ∈ LANGUAGES →
          Forall (λ r, offered (language r)) (users (serve w ev req).2))).
Proof.
  split.
  - apply language_index_offered.
  - intros Hw. split.
    + intros f req Hreq Hlang.
      apply register_clicked_request in Hreq as (_ & _ & _ & ->).
      cbn [serve].
      destruct (register_table w
                  {| RegisterUser.username := signup_username f;
                     RegisterUser.email := signup_email f;
                     RegisterUser.password := signup_password f;
                     RegisterUser.age :=
                       if signup_age f >? 0 then Some (signup_age f) else None;
                     RegisterUser.location := or_none (strip (signup_location f));
                     RegisterUser.phone := or_none (strip (signup_phone f));
                     RegisterUser.language := or_none (signup_language f) |}
                  (salt ev)) as [->|[hashed ->]]; [done|].
      apply Forall_app. split; [done|]. apply Forall_singleton. simpl.
      by apply or_none_offered.
    + intros token profile f req Hreq Hlang.
      apply save_clicked_request in Hreq as ->. simpl.
      destruct (get_current_user (users w) token (now ev)) as [cu|err]; [|done].
      rewrite update_profile_users.
      destruct (from_option fits_integer true _); [|done]. simpl.
      apply Forall_forall. intros r' Hr'.
      apply list_elem_of_fmap in Hr' as (r & -> & Hr).
      pose proof (proj1 (Forall_forall _ _) Hw r Hr) as Hoff.
      destruct (bool_decide (email r = email cu)); [|done]. simpl.
      apply supplied_offered; [|done].
      destruct (String.eqb (new_language f) _); [by left|].
      by apply or_none_offered.
Qed.

End ClientLanguage.

Lemma language_selector_defined_witness :
  Forall (λ r, offered (language r))
    (users (serve (H := sample_externals) sample_world sample_env
              (POST_register
                 {| RegisterUser.username := "bob"; RegisterUser.email := "b@x.com";
                    RegisterUser.password := "pw2"; RegisterUser.age := None;
                    RegisterUser.location := Some "NYC"; RegisterUser.phone := None;
                    RegisterUser.language := Some "Hindi" |})).2).
Proof.
  assert (Forall (λ r, offered (language r)) (users sample_world)) as Hw.
  { apply Forall_singleton. by left. }
  destruct (language_selector_defined (H := sample_externals) sample_strip
              sample_world sample_env) as [_ Hkeep].
  destruct (Hkeep Hw) as [Hreg _].
  apply (Hreg bob_signup _ eq_refl).
  vm_compute. do 2 right. by left.
Defined.

(** A language outside the choices, stored through the API, leaves the
    selector of the profile page without an index. *)
Example language_outside_choices :
  language_index (Profile (Some "carol") "c@x.com" None None None (Some "French"))
  = None.
Proof. reflexivity. Qed.

Section ClientReset.
Context `{Externals}.

(** X17: the reset page.  It sends a request only with a non-empty
    token, with a non-empty new password and with the confirmation equal
    to it.  When the token is one issued for a non-empty subject and has
    not expired, and the hasher accepts the password, the request is
    answered with success, the outbox and the console are as before, and
    the password typed in the confirmation field then verifies against
    the stored password of every row with that email. *)
Theorem reset_page_effect (query : option jwt.token) (new_pw confirm_pw : string)
    (req : request) :
  save_password_clicked query new_pw confirm_pw = Some req →
  ∃ token,
    query = Some token ∧ token_truthy query = true
    ∧ token ≠ jwt.Garbled ""
    ∧ new_pw ≠ "" ∧ confirm_pw = new_pw
    ∧ req = POST_reset_password
              {| ResetPasswordRequest.token := token;
                 ResetPasswordRequest.new_password := new_pw |}
    ∧ ∀ w ev s minutes t0,
        token = create_access_token {[ "sub" := JStr s ]} minutes t0 →
        s ≠ "" → now ev ≤ t0 + 60 * minutes →
        pwd_context.refused new_pw = false →
        (serve w ev req).1 = Return (Message "Password reset successful")
        ∧ outbox (serve w ev req).2 = outbox w
        ∧ console (serve w ev req).2 = console w
        ∧ ∀ (i : nat) r, users w !! i = Some r → email r = s →
            ∃ r', users (serve w ev req).2 !! i = Some r'
                  ∧ email r' = s
                  ∧ verify_password confirm_pw (password r') = Return true.
Proof.
  unfold save_password_clicked. destruct query as [token|]; [|done].
  destruct (token_truthy (Some token)) eqn:Htok; [|done].
  destruct (truthy new_pw) eqn:Hnew; [|done].
  destruct (truthy confirm_pw) eqn:Hconfirm; [|done]. simpl.
  destruct (String.eqb_spec new_pw confirm_pw) as [<-|Hne]; [|done]. simpl.
  intros [= <-]. exists token. split; [done|]. split; [done|].
  split; [by intros ->|].
  split; [by apply truthy_nonempty|]. split; [done|]. split; [done|].
  intros w ev s minutes t0 -> Hs Hnow Hacc. simpl.
  rewrite (reset_password_issued_accepted _ _ _ _ _ _ _ Hs Hnow Hacc). simpl.
  split; [done|]. split; [done|]. split; [done|].
  intros i r Hi He. unfold update_password.
  rewrite list_lookup_fmap, Hi. simpl. rewrite (bool_decide_eq_true_2 _ He).
  eexists. split; [reflexivity|]. simpl. split; [done|].
  by apply hash_verify_same.
Qed.

End ClientReset.

Lemma reset_page_effect_witness :
  (serve (H := sample_externals) sample_world sample_env
     (POST_reset_password
        {| ResetPasswordRequest.token := alice_token;
           ResetPasswordRequest.new_password := "pw9" |})).1
  = Return (Message "Password reset successful")
  ∧ ∃ r', users (serve (H := sample_externals) sample_world sample_env
                   (POST_reset_password
                      {| ResetPasswordRequest.token := alice_token;
                         ResetPasswordRequest.new_password := "pw9" |})).2
            !! 0%nat = Some r'
          ∧ email r' = "a@x.com"
          ∧ verify_password (H := sample_externals) "pw9" (password r')
            = Return true.
Proof.
  destruct (reset_page_effect (H := sample_externals) (Some alice_token)
              "pw9" "pw9" _ eq_refl)
    as (token & Hq & _ & _ & _ & _ & Hreq & Hserve).
  injection Hq as <-.
  destruct (Hserve sample_world sample_env "a@x.com" 60 1000)
    as (Hok & _ & _ & Hrows).
  - reflexivity.
  - discriminate.
  - vm_compute. discriminate.
  - reflexivity.
  - split; [exact Hok|]. exact (Hrows 0%nat alice eq_refl eq_refl).
Defined.

Section ClientAccounts.
Context `{Externals}.
Variable strip : string → string.

Lemma client_register_email user :
  client_built strip (POST_register user) → RegisterUser.email user ≠ "".
Proof.
  intros [(login_id & password & Hc)|[(f & Hc)|[(forgot_email & Hc)|
          [(token & Hc)|[(token & profile & f & Hc)|(query & new_pw & confirm_pw & Hc)]]]]].
  - unfold login_clicked in Hc. by destruct (_ && _).
  - apply register_clicked_request in Hc as (_ & He & _ & [= ->]). done.
  - unfold forgot_clicked in Hc. by destruct (truthy _).
  - done.
  - by apply save_clicked_request in Hc.
  - unfold save_password_clicked in Hc. destruct query as [token|]; [|done].
    destruct (negb _); [done|]. destruct (_ || _); [done|].
    by destruct (negb _).
Qed.

Lemma serve_nonempty_emails w ev req :
  Forall (λ r, email r ≠ "") (users w) →
  (∀ user, req = POST_register user → RegisterUser.email user ≠ "") →
  Forall (λ r, email r ≠ "") (users (serve w ev req).2).
Proof.
  intros Hw Hreq.
  destruct (serve_shape w ev req) as (g & extra & Hshape & Hg & _ & Hnone).
  destruct req as [user|u p|token|token payload|e|payload];
    try (rewrite Hshape, (Hnone ltac:(done)), app_nil_r;
         apply Forall_forall; intros r' Hr';
         apply list_elem_of_fmap in Hr' as (r & -> & Hr);
         destruct (Hg r) as (_ & -> & _);
         by apply (proj1 (Forall_forall _ _) Hw)).
  cbn [serve].
  destruct (register_table w user (salt ev)) as [->|[hashed ->]]; [done|].
  apply Forall_app. split; [done|]. apply Forall_singleton. simpl.
  by apply Hreq.
Qed.

Lemma login_returns w ident pw t0 token token_type :
  login w ident pw t0 = Return (Bearer token token_type) →
  ∃ u, get_user_by_email_or_username (users w) ident = Some u
       ∧ token = create_access_token {[ "sub" := JStr (email u) ]}
                   ACCESS_TOKEN_EXPIRE_MINUTES t0.
Proof.
  unfold login.
  destruct (get_user_by_email_or_username (users w) ident) as [u|]; [|done].
  destruct (verify_password pw (password u)) as [[|]|e]; simpl; [|done..].
  intros [= <- _]. by exists u.
Qed.

(** X18: accounts made through the client.  From a table in which every
    email is non-empty, a sequence of requests that the client's buttons
    can send reaches only tables in which every email is non-empty; and
    in such a table every token that a login returns authenticates a
    request at any time up to its expiry. *)
Theorem client_tokens_authenticate (w : world) (trace : list (env * request)) :
  Forall (λ r, email r ≠ "") (users w) →
  Forall (λ er, client_built strip er.2) trace →
  let reached := run w trace in
  Forall (λ r, email r ≠ "") (users reached)
  ∧ ∀ ident pw t0 token token_type now,
      login reached ident pw t0 = Return (Bearer token token_type) →
      now ≤ t0 + 60 * ACCESS_TOKEN_EXPIRE_MINUTES →
      ∃ row, get_current_user (users reached) token now = Return row.
Proof.
  intros Hw Htrace reached.
  assert (Forall (λ r, email r ≠ "") (users reached)) as Hreached.
  { subst reached. revert w Hw.
    induction Htrace as [|[ev req] rest Hreq _ IH]; intros w Hw; simpl; [done|].
    apply IH. apply serve_nonempty_emails; [done|].
    intros user ->. by apply client_register_email. }
  split; [done|].
  intros ident pw t0 token token_type now Hlogin Hnow.
  apply login_returns in Hlogin as (u & Hu & ->).
  destruct (select_by_email_found _ _ _ Hu) as (row & Hrow & _).
  exists row. rewrite current_user_issued.
  assert ((t0 + 60 * ACCESS_TOKEN_EXPIRE_MINUTES <? now) = false) as ->
    by (apply Z.ltb_ge; lia).
  apply lookup_some in Hu as [Hin _].
  rewrite bool_decide_eq_false_2
    by (by apply (proj1 (Forall_forall _ _) Hreached)).
  by rewrite Hrow.
Qed.

End ClientAccounts.

Lemma client_tokens_authenticate_witness :
  Forall (λ r, email r ≠ "")
    (users (run (H := sample_externals) sample_world
              [ (sample_env,
                 POST_register
                   {| RegisterUser.username := "bob"; RegisterUser.email := "b@x.com";
                      RegisterUser.password := "pw2"; RegisterUser.age := None;
                      RegisterUser.location := Some "NYC";
                      RegisterUser.phone := None;
                      RegisterUser.language := Some "Hindi" |});
                (sample_env, POST_login "b@x.com" "pw2") ])).
Proof.
  assert (Forall (λ r, email r ≠ "") (users sample_world)) as Hw.
  { apply Forall_singleton. discriminate. }
  apply (client_tokens_authenticate (H := sample_externals) sample_strip
           sample_world _ Hw).
  apply Forall_cons. split.
  - right. left. by exists bob_signup.
  - apply Forall_singleton. left. by exists "b@x.com", "pw2".
Defined.
